(** * HFT dashboard and engine: a shallow embedding and its properties

    The repository is a React/TypeScript front end ([frontend/src]) for a
    simulated trading engine.  The first part of this file embeds the
    front-end code the properties are about, one module per source file;
    the second part embeds the engine core, which the repository only
    documents; the third part states and proves the properties.

    Conventions of the embedding.
    - A JavaScript [number] is a rational [Q]: every number the embedded code
      compares or multiplies is finite (JSON carries no NaN), and on finite
      values the comparisons of the code are the comparisons of [Q].  The
      statistics of the trade history add, multiply and divide in binary64:
      there each operation is the exact one followed by [Js.round], rounding
      to the nearest binary64 value.  The formulas of the mock-data
      generator are written with the exact operations, which is what
      binary64 computes where it does not round, as on the whole numbers of
      the scenario below.
    - A JavaScript string is a [string]; [===] on strings is [String.eqb].
    - [Array.prototype.filter] is [List.filter]; [reduce] without an initial
      value is [reduce] below, which has no result on the empty array (the
      TypeError of the language).
    - Code that can throw returns a [completion]: [Normal v] or [Throws e]. *)

From Stdlib Require Import QArith Qround Qabs Qminmax Qpower Lqa ZArith List Ascii String Bool Lia DecimalString.
From stdpp Require Import base option list gmap strings.

Open Scope Z_scope.
Open Scope string_scope.

(** ** JavaScript values *)

Module Js.

Definition number := Q.

(** [a > b] and [a < b] on finite numbers. *)
Definition gt (a b : number) : bool := negb (Qle_bool a b).
Definition lt (a b : number) : bool := negb (Qle_bool b a).

(** [a || b] on numbers: [a] unless it is falsy, that is zero. *)
Definition or_number (a b : number) : number := if Qeq_bool a 0%Q then b else a.

(** [a || b] on strings: [a] unless it is the empty string. *)
Definition or_string (a b : string) : string := if String.eqb a "" then b else a.

(** A thrown value. *)
Inductive error : Type :=
| TypeError (msg : string)
| SyntaxError (msg : string)
| Error (msg : string).

(** The completion of an expression or of an awaited promise. *)
Inductive completion (A : Type) : Type :=
| Normal (a : A)
| Throws (e : error).
Arguments Normal {A} a.
Arguments Throws {A} e.

Definition bind {A B} (c : completion A) (k : A -> completion B) : completion B :=
  match c with
  | Normal a => k a
  | Throws e => Throws e
  end.

(** [arr.reduce(f)] with no initial value. *)
Definition reduce {A} (f : A -> A -> A) (arr : list A) : completion A :=
  match arr with
  | [] => Throws (TypeError "Reduce of empty array with no initial value")
  | x :: xs => Normal (fold_left f xs x)
  end.

(** [Math.max(x, ...xs)] and [Math.min(x, ...xs)] on finite numbers. *)
Definition Math_max (x : number) (xs : list number) : number := fold_left Qmax xs x.
Definition Math_min (x : number) (xs : list number) : number := fold_left Qmin xs x.

(** [n] as a number, for a length. *)
Definition of_nat (n : nat) : number := inject_Z (Z.of_nat n).

(** The arithmetic of numbers is that of binary64: the exact result,
    rounded to the nearest binary64 value, to the one with the even
    significand when two are as near.  A result that is not finite in the
    code, beyond the range of binary64, is outside the model. *)

(** The integer part of the binary logarithm of a positive rational. *)
Definition ilog2 (x : Q) : Z :=
  let d := (Z.log2 (Qnum x) - Z.log2 (Zpos (Qden x)))%Z in
  if Qle_bool (2 ^ d) x then d else (d - 1)%Z.

(** The nearest integer, the even one when two are as near. *)
Definition rne (x : Q) : Z :=
  let f := Qfloor x in
  match (x - inject_Z f ?= 1 # 2)%Q with
  | Lt => f
  | Gt => (f + 1)%Z
  | Eq => if Z.even f then f else (f + 1)%Z
  end.

(** The spacing of the binary64 values around [x]: 2^(e-52) where
    2^e <= |x| < 2^(e+1), and 2^-1074 below 2^-1022. *)
Definition ulp (x : Q) : Q := (2 ^ (Z.max (ilog2 (Qabs x)) (-1022) - 52))%Q.

(** The nearest multiple of the spacing. *)
Definition nearest (x : Q) : Q :=
  if Qeq_bool x 0 then 0%Q else (inject_Z (rne (x / ulp x)) * ulp x)%Q.

(** The binary64 value an exact result is rounded to, in lowest terms. *)
Definition round (x : Q) : number := Qred (nearest (Qred x)).

(** [a + b], [a * b] and [a / b] on numbers. *)
Definition add (a b : number) : number := round (a + b).
Definition mul (a b : number) : number := round (a * b).
Definition div (a b : number) : number := round (a / b).

(** The decimal numeral of a whole number from zero. *)
Definition digits (n : Z) : string := NilZero.string_of_uint (N.to_uint (Z.to_N n)).

Fixpoint zeros (k : nat) : string :=
  match k with
  | O => ""
  | S k => String.String "0" (zeros k)
  end.

(** The numeral of [n / 10^f] with [f] digits after the point: the digits
    of [n], with zeros in front up to [f + 1] digits, and the point before
    the last [f] of them. *)
Definition fixed (n : Z) (f : nat) : string :=
  let m := digits n in
  let m := zeros (S f - String.length m) ++ m in
  let k := (String.length m - f)%nat in
  if (f =? 0)%nat then m
  else substring 0 k m ++ "." ++ substring k f m.

(** [x.toFixed(f)] for [x] below 10^21: the numeral of [n / 10^f] for the
    integer [n] with [n / 10^f] nearest to [x], the larger one when two are
    as near, after the sign of a negative [x]. *)
Definition toFixed (x : number) (f : nat) : string :=
  let n := Qfloor (Qabs x * inject_Z (10 ^ Z.of_nat f) + (1 # 2)) in
  (if Qle_bool 0 x then "" else "-") ++ fixed n f.

(** [s.endsWith(suffix)]: [s] or one of its tails is [suffix]. *)
Fixpoint endsWith (s suffix : string) : bool :=
  if String.eqb s suffix then true
  else match s with
       | EmptyString => false
       | String.String _ tail => endsWith tail suffix
       end.

(** [s.split(sep)] for a separator of one character: the pieces between
    the separators, of which there is always at least one. *)
Fixpoint split (sep : Ascii.ascii) (s : string) : list string :=
  match s with
  | EmptyString => [""]
  | String.String c tail =>
      if Ascii.eqb c sep then "" :: split sep tail
      else match split sep tail with
           | piece :: pieces => String.String c piece :: pieces
           | [] => [String.String c ""]
           end
  end.

(** [pieces.join(sep)] *)
Fixpoint join (sep : string) (pieces : list string) : string :=
  match pieces with
  | [] => ""
  | [piece] => piece
  | piece :: pieces => piece ++ sep ++ join sep pieces
  end.

(** A parsed JSON document. *)
#[local] Unset Elimination Schemes.
Inductive value : Type :=
| Null
| Boolean (b : bool)
| Number (n : number)
| String (s : string)
| Array (items : list value)
| Object (fields : list (string * value)).
#[local] Set Elimination Schemes.

(** The truth value of a value in a condition: [null], [false], [0] and
    the empty string are falsy, everything else is truthy. *)
Definition truthy (v : value) : bool :=
  match v with
  | Null => false
  | Boolean b => b
  | Number n => negb (Qeq_bool n 0%Q)
  | String s => negb (String.eqb s "")
  | Array _ => true
  | Object _ => true
  end.

End Js.

(** Sequencing of completions is written [x ← c; k], as for any monad of
    stdpp. *)
#[export] Instance completion_ret : MRet Js.completion := @Js.Normal.
#[export] Instance completion_bind : MBind Js.completion :=
  fun A B k c => Js.bind c k.

(** ** utils/mockData.ts *)

Module MockData.

Inductive OrderType := BUY | SELL.

(** [interface TradeRecord].  [timestamp] is kept as the epoch milliseconds
    the ISO string is printed from; [status] is a string because the
    dashboard compares it with the string of the status filter. *)
Record TradeRecord := {
  id : string;
  timestamp : Z;
  coin : string;
  strategy : string;
  orderType : OrderType;
  quantity : Js.number;
  executionPrice : Js.number;
  currentPrice : Js.number;
  pnl : Js.number;
  status : string
}.

Definition coins : list string :=
  ["BTC"; "ETH"; "SOL"; "XRP"; "DOGE"; "ADA"; "AVAX"; "MATIC"].
Definition strategies : list string :=
  ["SMA_Crossover"; "Momentum"; "MeanReversion"; "RSI"; "BollingerBands"; "MACD"].

(** The six [Math.random()] draws of one iteration of the loop of
    [generateTradeHistory], in the order the body makes them. *)
Record Draws := {
  rCoin : Js.number;
  rStrategy : Js.number;
  rOrderType : Js.number;
  rQuantity : Js.number;
  rExecutionPrice : Js.number;
  rCurrentPrice : Js.number
}.

(** [arr[Math.floor(r * arr.length)]]; [r] is in [0, 1), so the index is in
    range and the default is never used. *)
Definition pick (arr : list string) (r : Js.number) : string :=
  nth (Z.to_nat (Qfloor (r * inject_Z (Z.of_nat (length arr))))) arr "".

(** [(currentPrice - executionPrice) * quantity * (orderType === 'BUY' ? 1 : -1)] *)
Definition pnlOf (orderType : OrderType) (quantity executionPrice currentPrice : Js.number)
  : Js.number :=
  ((currentPrice - executionPrice) * quantity
   * (match orderType with BUY => 1 | SELL => -1 end))%Q.

(** The body of the loop of [generateTradeHistory] at index [i].  The
    products and the difference are the exact ones: the rounding of binary64
    is left out of this function, so [currentPrice] and [pnl] are those of
    the code where it computes them without rounding. *)
Definition generateTradeRecord (now : Z) (i : nat) (d : Draws) : TradeRecord :=
  let coin := pick coins (rCoin d) in
  let strategy := pick strategies (rStrategy d) in
  let orderType := if Js.gt (rOrderType d) (1 # 2) then BUY else SELL in
  let quantity := (rQuantity d * 2)%Q in
  let executionPrice := (rExecutionPrice d * 50000)%Q in
  let currentPrice :=
    (executionPrice * (1 + (rCurrentPrice d - (1 # 2)) * (1 # 10)))%Q in
  let pnl := pnlOf orderType quantity executionPrice currentPrice in
  {| id := "trade-" ++ NilZero.string_of_uint (Nat.to_uint i);
     timestamp := now - Z.of_nat i * 3600000;
     coin := coin;
     strategy := strategy;
     orderType := orderType;
     quantity := quantity;
     executionPrice := executionPrice;
     currentPrice := currentPrice;
     pnl := pnl;
     status := if (i <? 2)%nat then "Pending"
               else if (i <? 3)%nat then "Failed" else "Executed" |}.

(** [generateTradeHistory]: fifty records, [draws i] being the draws of
    iteration [i]. *)
Definition generateTradeHistory (now : Z) (draws : nat -> Draws) : list TradeRecord :=
  map (fun i => generateTradeRecord now i (draws i)) (seq 0 50).

(** One row of [generateBacktestResults]. *)
Record BacktestResult := {
  r_strategy : string;
  r_coin : string;
  r_return : Js.number;
  sharpe : Js.number;
  cagr : Js.number;
  maxDD : Js.number;
  winRate : Js.number;
  trades : Js.number
}.

Definition generateBacktestResults : list BacktestResult :=
  [ {| r_strategy := "SMA_Crossover"; r_coin := "BTC"; r_return := 245 # 10;
       sharpe := 28 # 10; cagr := 182 # 10; maxDD := - (85 # 10);
       winRate := 67; trades := 124 |};
    {| r_strategy := "Momentum"; r_coin := "ETH"; r_return := 321 # 10;
       sharpe := 32 # 10; cagr := 224 # 10; maxDD := - (121 # 10);
       winRate := 71; trades := 156 |};
    {| r_strategy := "RSI"; r_coin := "SOL"; r_return := 287 # 10;
       sharpe := 29 # 10; cagr := 205 # 10; maxDD := - (102 # 10);
       winRate := 69; trades := 143 |};
    {| r_strategy := "MACD"; r_coin := "XRP"; r_return := 193 # 10;
       sharpe := 23 # 10; cagr := 158 # 10; maxDD := - (78 # 10);
       winRate := 64; trades := 98 |};
    {| r_strategy := "BollingerBands"; r_coin := "DOGE"; r_return := 152 # 10;
       sharpe := 19 # 10; cagr := 124 # 10; maxDD := - (95 # 10);
       winRate := 61; trades := 87 |};
    {| r_strategy := "MeanReversion"; r_coin := "ADA"; r_return := 218 # 10;
       sharpe := 25 # 10; cagr := 172 # 10; maxDD := - (89 # 10);
       winRate := 65; trades := 112 |} ]%Q.

(** [interface LiveTradeData] *)
Record LiveTradeData := {
  l_coin : string;
  l_strategy : string;
  l_currentPrice : Js.number;
  pnl24h : Js.number;
  return24h : Js.number;
  l_status : string;
  trades24h : Js.number
}.

Definition generateLiveTradeData : list LiveTradeData :=
  [ {| l_coin := "BTC"; l_strategy := "SMA_Crossover"; l_currentPrice := 43210;
       pnl24h := 54210 # 100; return24h := 32 # 10; l_status := "ACTIVE";
       trades24h := 12 |};
    {| l_coin := "ETH"; l_strategy := "Momentum"; l_currentPrice := 2320;
       pnl24h := - (5030 # 100); return24h := - (11 # 10); l_status := "IDLE";
       trades24h := 8 |};
    {| l_coin := "SOL"; l_strategy := "RSI"; l_currentPrice := 985 # 10;
       pnl24h := 12045 # 100; return24h := 28 # 10; l_status := "ACTIVE";
       trades24h := 15 |};
    {| l_coin := "XRP"; l_strategy := "MACD"; l_currentPrice := 62 # 100;
       pnl24h := 8920 # 100; return24h := 19 # 10; l_status := "ACTIVE";
       trades24h := 20 |};
    {| l_coin := "DOGE"; l_strategy := "BollingerBands"; l_currentPrice := 89 # 1000;
       pnl24h := - (2310 # 100); return24h := - (5 # 10); l_status := "PAUSED";
       trades24h := 5 |};
    {| l_coin := "ADA"; l_strategy := "MeanReversion"; l_currentPrice := 55 # 100;
       pnl24h := 6780 # 100; return24h := 14 # 10; l_status := "ACTIVE";
       trades24h := 11 |} ]%Q.

End MockData.

(** ** components/dashboard/TradeHistoryDashboard.tsx *)

Module TradeHistoryDashboard.
Import MockData.

(** The [filters] state of the component. *)
Record Filters := {
  f_coin : string;
  f_strategy : string;
  f_status : string
}.

(** The initial value of [filters]. *)
Definition initialFilters : Filters :=
  {| f_coin := "All"; f_strategy := "All"; f_status := "All" |}.

(** [a !== b] on strings. *)
Definition strict_ne (a b : string) : bool := negb (String.eqb a b).

(** The callback of [trades.filter] that computes [filteredTrades]. *)
Definition keeps (filters : Filters) (trade : TradeRecord) : bool :=
  if strict_ne (f_coin filters) "All" && strict_ne (coin trade) (f_coin filters)
  then false
  else if strict_ne (f_strategy filters) "All"
          && strict_ne (strategy trade) (f_strategy filters)
  then false
  else if strict_ne (f_status filters) "All"
          && strict_ne (status trade) (f_status filters)
  then false
  else true.

Definition filteredTrades (filters : Filters) (trades : list TradeRecord)
  : list TradeRecord :=
  List.filter (keeps filters) trades.

Definition totalTrades (filtered : list TradeRecord) : nat := length filtered.

Definition executedTrades (filtered : list TradeRecord) : list TradeRecord :=
  List.filter (fun t => String.eqb (status t) "Executed") filtered.

Definition winningTrades (filtered : list TradeRecord) : list TradeRecord :=
  List.filter (fun t => Js.gt (pnl t) 0%Q) (executedTrades filtered).

Definition losingTrades (filtered : list TradeRecord) : list TradeRecord :=
  List.filter (fun t => Js.lt (pnl t) 0%Q) (executedTrades filtered).

(** [executedTrades.length > 0
      ? ((winningTrades.length / executedTrades.length) * 100).toFixed(1)
      : '0'] *)
Definition winRate (filtered : list TradeRecord) : string :=
  if (0 <? length (executedTrades filtered))%nat
  then Js.toFixed
         (Js.mul (Js.div (Js.of_nat (length (winningTrades filtered)))
                         (Js.of_nat (length (executedTrades filtered))))
                 100%Q) 1
  else "0".

(** [list.reduce((sum, t) => sum + t.pnl, 0)] *)
Definition sumPnl (list : list TradeRecord) : Js.number :=
  fold_left (fun sum t => Js.add sum (pnl t)) list 0%Q.

(** [winningTrades.length > 0
      ? winningTrades.reduce((sum, t) => sum + t.pnl, 0) / winningTrades.length
      : 0] *)
Definition avgWin (filtered : list TradeRecord) : Js.number :=
  if (0 <? length (winningTrades filtered))%nat
  then Js.div (sumPnl (winningTrades filtered))
              (Js.of_nat (length (winningTrades filtered)))
  else 0%Q.

(** The same for the losing trades. *)
Definition avgLoss (filtered : list TradeRecord) : Js.number :=
  if (0 <? length (losingTrades filtered))%nat
  then Js.div (sumPnl (losingTrades filtered))
              (Js.of_nat (length (losingTrades filtered)))
  else 0%Q.

(** [winningTrades.length > 0 ? Math.max(...winningTrades.map(t => t.pnl)) : 0] *)
Definition largestWin (filtered : list TradeRecord) : Js.number :=
  match map pnl (winningTrades filtered) with
  | [] => 0%Q
  | x :: xs => Js.Math_max x xs
  end.

(** [losingTrades.length > 0 ? Math.min(...losingTrades.map(t => t.pnl)) : 0] *)
Definition largestLoss (filtered : list TradeRecord) : Js.number :=
  match map pnl (losingTrades filtered) with
  | [] => 0%Q
  | x :: xs => Js.Math_min x xs
  end.

(** The rows of the table: [filteredTrades.slice(0, 25)]. *)
Definition visibleTrades (filtered : list TradeRecord) : list TradeRecord :=
  firstn 25 filtered.

(** What the effect hook gets from [fetchInitialTrades], as it reads it:
    nothing ([data] is [null]), a document whose [trades] is not an array,
    or one whose [trades] is an array. *)
Inductive InitialData :=
| NoData
| NoTrades
| Trades (trades : list TradeRecord).

(** A WebSocket message as the subscription reads it: a falsy value, or a
    value with its [type], if it has one, and its [trade]. *)
Inductive WsMessage :=
| Falsy
| Message (type : option string) (trade : TradeRecord).

(** The part of the state of the component the two hooks write, with the
    [mounted] flag of the effect hook. *)
Record History := {
  trades : list TradeRecord;
  mounted : bool
}.

(** The component as it mounts. *)
Definition mount : History := {| trades := []; mounted := true |}.

(** The continuation of [await fetchInitialTrades()]:
    [if (mounted && data && Array.isArray(data.trades))
       setTrades(data.trades.reverse())]. *)
Definition onInitialTrades (data : InitialData) (h : History) : History :=
  match data with
  | Trades l =>
      if mounted h then {| trades := rev l; mounted := true |} else h
  | _ => h
  end.

(** The handler given to [useWsMessages]; it is subscribed while the
    component is mounted. *)
Definition onWsMessage (msg : WsMessage) (h : History) : History :=
  if mounted h then
    match msg with
    | Falsy => h
    | Message type t =>
        match type with
        | Some type =>
            if String.eqb type "trade"
            then {| trades := t :: trades h; mounted := true |}
            else h
        | None => h
        end
    end
  else h.

(** The cleanups of the two hooks. *)
Definition unmount (h : History) : History :=
  {| trades := trades h; mounted := false |}.

Inductive HistoryEvent :=
| InitialTradesArrive (data : InitialData)
| WsMessageArrives (msg : WsMessage)
| Unmounts.

Definition step (h : History) (e : HistoryEvent) : History :=
  match e with
  | InitialTradesArrive data => onInitialTrades data h
  | WsMessageArrives msg => onWsMessage msg h
  | Unmounts => unmount h
  end.

Definition run (events : list HistoryEvent) (h : History) : History :=
  fold_left step events h.

End TradeHistoryDashboard.

(** ** components/dashboard/OptimizationDashboard.tsx *)

Module OptimizationDashboard.
Import MockData.

(** The callback of the [reduce] that computes [bestStrategy]:
    [(prev.sharpe > current.sharpe) ? prev : current]. *)
Definition better (prev current : BacktestResult) : BacktestResult :=
  if Js.gt (sharpe prev) (sharpe current) then prev else current.

(** [results.reduce((prev, current) => ...)], with no guard on the length. *)
Definition bestStrategy (results : list BacktestResult) : Js.completion BacktestResult :=
  Js.reduce better results.

End OptimizationDashboard.

(** ** The optimization dashboard wired to the back end (unnamed/part_002) *)

Module BacktestDashboard.
Import MockData.

(** The state of the component, one field per [useState]. *)
Record State := {
  hasResults : bool;
  results : list BacktestResult;
  isRunning : bool;
  isFileUploaded : bool;
  uploadStatus : option string;
  fileName : option string;
  fromDate : string;
  toDate : string;
  capital : Js.number;
  selectedStrategy : string
}.

(** The initial values of the [useState] calls. *)
Definition initialState : State :=
  {| hasResults := false; results := generateBacktestResults; isRunning := false;
     isFileUploaded := false; uploadStatus := None; fileName := None;
     fromDate := "2024-01-01"; toDate := "2024-12-14"; capital := 10000%Q;
     selectedStrategy := "All Strategies" |}.

(** The argument of [fetch]; [body] is the object handed to
    [JSON.stringify]. *)
Record Request := {
  url : string;
  method : string;
  headers : list (string * string);
  body : Js.value
}.

(** What [await response.json()] gives the handler: [null], on which a
    property access throws, or a document, of which the handler reads
    [results] ([Some rows] when it is an array) and prints [detail]. *)
Inductive Body :=
| Nullish
| Document (rows : option (list BacktestResult)) (detail : string).

Record Response := {
  ok : bool;
  json : Js.completion Body
}.

(** The browser the handler runs in: [new Date(s).getTime()], with [None]
    for NaN (an invalid date), and [fetch], which rejects when the server
    cannot be reached. *)
Record Browser := {
  getTime : string -> option Z;
  fetch : Request -> Js.completion Response
}.

(** What the handler does to the world, in order.  The messages of the
    alerts are the source's without their leading pictograph. *)
Inductive Effect :=
| Alert (msg : string)
| Fetch (req : Request)
| ConsoleError (label : string) (e : Js.error).

Definition setIsRunning (b : bool) (st : State) : State :=
  {| hasResults := hasResults st; results := results st; isRunning := b;
     isFileUploaded := isFileUploaded st; uploadStatus := uploadStatus st;
     fileName := fileName st; fromDate := fromDate st; toDate := toDate st;
     capital := capital st; selectedStrategy := selectedStrategy st |}.

Definition setHasResults (b : bool) (st : State) : State :=
  {| hasResults := b; results := results st; isRunning := isRunning st;
     isFileUploaded := isFileUploaded st; uploadStatus := uploadStatus st;
     fileName := fileName st; fromDate := fromDate st; toDate := toDate st;
     capital := capital st; selectedStrategy := selectedStrategy st |}.

Definition setResults (rows : list BacktestResult) (st : State) : State :=
  {| hasResults := hasResults st; results := rows; isRunning := isRunning st;
     isFileUploaded := isFileUploaded st; uploadStatus := uploadStatus st;
     fileName := fileName st; fromDate := fromDate st; toDate := toDate st;
     capital := capital st; selectedStrategy := selectedStrategy st |}.

Definition backtestRequest (st : State) : Request :=
  {| url := "http://localhost:8000/api/backtest/run";
     method := "POST";
     headers := [("Content-Type", "application/json")];
     body := Js.Object [("strategy", Js.String (selectedStrategy st));
                        ("from_date", Js.String (fromDate st));
                        ("to_date", Js.String (toDate st));
                        ("capital", Js.Number (capital st))] |}.

(** [data.results], a property access that throws on [null]. *)
Definition get_results (data : Body) : Js.completion (option (list BacktestResult)) :=
  match data with
  | Nullish => Js.Throws (Js.TypeError "Cannot read properties of null (reading 'results')")
  | Document rows _ => Js.Normal rows
  end.

(** [err.detail], printed. *)
Definition get_detail (err : Body) : Js.completion string :=
  match err with
  | Nullish => Js.Throws (Js.TypeError "Cannot read properties of null (reading 'detail')")
  | Document _ detail => Js.Normal detail
  end.

(** The inner [try]/[catch] of the branch for a response that is not [ok]:
    the alert it raises. *)
Definition serverErrorAlert (response : Response) : Effect :=
  match (err ← json response; get_detail err) with
  | Js.Normal detail => Alert ("Server Error: " ++ detail)
  | Js.Throws _ => Alert "Backtest failed to start on server."
  end.

(** The [try] block of [handleRunBacktest], after the two state updates
    before it: the state and the effects it leaves behind the request, or
    the exception it ends with. *)
Definition afterFetch (b : Browser) (st : State)
  : Js.completion (State * list Effect) :=
  response ← fetch b (backtestRequest st);
  if ok response then
    data ← json response;
    rows ← get_results data;
    let st1 :=
      match rows with
      | Some rows => setResults rows st
      | None => setResults generateBacktestResults st
      end in
    mret (setHasResults true st1, [])
  else
    mret (st, [serverErrorAlert response]).

(** [handleRunBacktest]: the next state of the component and the effects of
    the call, in order. *)
Definition handleRunBacktest (b : Browser) (st : State) : State * list Effect :=
  if negb (isFileUploaded st) then
    (st, [Alert "Please upload a CSV file first!"])
  else if String.eqb (fromDate st) "" || String.eqb (toDate st) "" then
    (st, [Alert "Please select both a Start Date and End Date."])
  else
    match getTime b (fromDate st), getTime b (toDate st) with
    | Some start, Some end_ =>
        if (start >? end_)%Z then
          (st, [Alert "Error: 'From Date' must be before 'To Date'"])
        else
          let st1 := setHasResults false (setIsRunning true st) in
          let '(st2, effects) :=
            match afterFetch b st1 with
            | Js.Normal (st2, effects) => (st2, effects)
            | Js.Throws error =>
                (st1, [ConsoleError "Backtest error:" error;
                       Alert "Error connecting to backend."])
            end in
          (setIsRunning false st2, Fetch (backtestRequest st) :: effects)
    | _, _ => (st, [Alert "Invalid Date Selection."])
    end.

(** The rendered [bestStrategy] is a row of [results] or the placeholder
    [{ strategy: "N/A", coin: "N/A", sharpe: 0, return: 0 }]. *)
Inductive Best :=
| Row (r : BacktestResult)
| Placeholder (strategy coin : string) (sharpe return_ : Js.number).

(** [results.length > 0 ? results.reduce(...) : { strategy: "N/A", ... }] *)
Definition bestStrategy (results : list BacktestResult) : Js.completion Best :=
  if (0 <? length results)%nat then
    r ← Js.reduce OptimizationDashboard.better results; mret (Row r)
  else mret (Placeholder "N/A" "N/A" 0%Q 0%Q).

(** A [File], as far as the handlers look at it. *)
Record File := {
  name : string;
  type : string
}.

(** The answer to the POST of the form with the file to
    [http://localhost:8000/api/upload]. *)
Definition UploadServer := File -> Js.completion Response.

Definition setUploadStatus (status : option string) (st : State) : State :=
  {| hasResults := hasResults st; results := results st; isRunning := isRunning st;
     isFileUploaded := isFileUploaded st; uploadStatus := status;
     fileName := fileName st; fromDate := fromDate st; toDate := toDate st;
     capital := capital st; selectedStrategy := selectedStrategy st |}.

Definition setFileName (name : option string) (st : State) : State :=
  {| hasResults := hasResults st; results := results st; isRunning := isRunning st;
     isFileUploaded := isFileUploaded st; uploadStatus := uploadStatus st;
     fileName := name; fromDate := fromDate st; toDate := toDate st;
     capital := capital st; selectedStrategy := selectedStrategy st |}.

Definition setIsFileUploaded (b : bool) (st : State) : State :=
  {| hasResults := hasResults st; results := results st; isRunning := isRunning st;
     isFileUploaded := b; uploadStatus := uploadStatus st;
     fileName := fileName st; fromDate := fromDate st; toDate := toDate st;
     capital := capital st; selectedStrategy := selectedStrategy st |}.

(** [data.message], a property access that throws on [null]. *)
Definition get_message (data : Body) : Js.completion unit :=
  match data with
  | Nullish => Js.Throws (Js.TypeError "Cannot read properties of null (reading 'message')")
  | Document _ _ => Js.Normal tt
  end.

(** The [try] block of [uploadRealFile]: the state after the updates it
    made, and whether it ended normally or with an exception. *)
Definition uploadAttempt (upload : UploadServer) (file : File) (st : State)
  : State * Js.completion unit :=
  let st1 := setFileName (Some (name file)) (setUploadStatus (Some "Uploading...") st) in
  match upload file with
  | Js.Throws e => (st1, Js.Throws e)
  | Js.Normal response =>
      if ok response then
        match json response with
        | Js.Throws e => (st1, Js.Throws e)
        | Js.Normal data =>
            (setIsFileUploaded true (setUploadStatus (Some "Success! Data loaded.") st1),
             get_message data)
        end
      else
        (setFileName None
           (setIsFileUploaded false (setUploadStatus (Some "Upload failed.") st1)),
         Js.Normal tt)
  end.

(** [uploadRealFile]: the state of the component once the upload has
    settled. *)
Definition uploadRealFile (upload : UploadServer) (file : File) (st : State) : State :=
  match uploadAttempt upload file st with
  | (st', Js.Normal _) => st'
  | (st', Js.Throws _) =>
      setFileName None
        (setIsFileUploaded false
           (setUploadStatus (Some "Error connecting to server.") st'))
  end.

(** [handleFileChange], given the files of the input. *)
Definition handleFileChange (upload : UploadServer) (files : list File) (st : State)
  : State :=
  match files with
  | file :: _ => uploadRealFile upload file st
  | [] => st
  end.

(** [handleDrop], given the files of the drop. *)
Definition handleDrop (upload : UploadServer) (files : list File) (st : State)
  : State * list Effect :=
  match files with
  | droppedFile :: _ =>
      if String.eqb (type droppedFile) "text/csv"
         || Js.endsWith (name droppedFile) ".csv"
      then (uploadRealFile upload droppedFile st, [])
      else (st, [Alert "Please drop a valid CSV file."])
  | [] => (st, [])
  end.

(** [handleLoadSampleData] *)
Definition handleLoadSampleData (upload : UploadServer) (st : State) : State :=
  uploadRealFile upload {| name := "sample_data.csv"; type := "text/csv" |} st.

(** A bar of the chart. *)
Record Bar := {
  bar_name : string;
  bar_sharpe : Js.number;
  bar_return : Js.number
}.

(** [chartData]; the name is [`${r.coin}_${r.strategy.split('_')[0]}`]. *)
Definition chartData (results : list BacktestResult) : list Bar :=
  map (fun r =>
         {| bar_name := r_coin r ++ "_" ++ hd "" (Js.split "_"%char (r_strategy r));
            bar_sharpe := sharpe r;
            bar_return := r_return r |})
    results.

End BacktestDashboard.

(** ** api/apiClient.ts *)

Module ApiClient.

(** The second argument of [fetch]; [body] is the object handed to
    [JSON.stringify]. *)
Record RequestInit := {
  method : string;
  headers : list (string * string);
  body : option Js.value
}.

Record Response := {
  ok : bool;
  json : Js.completion Js.value
}.

(** The network: [await fetch(url, init)] gives a response or rejects; an
    awaited promise is taken to settle. *)
Definition Network := string -> RequestInit -> Js.completion Response.

(** A value of type [any] on its way into [JSON.stringify]: it has a JSON
    rendering, or [JSON.stringify] throws on it (a cycle, a BigInt). *)
Inductive any :=
| Plain (v : Js.value)
| Unserializable.

Definition toJSON (a : any) : Js.completion Js.value :=
  match a with
  | Plain v => Js.Normal v
  | Unserializable => Js.Throws (Js.TypeError "Converting circular structure to JSON")
  end.

(** The [opts] of [startEngine]; a field that is left out is [None]. *)
Record StartOptions := {
  data_source : option string;
  coins : option string;
  interval : option Js.number
}.

(** [x || d] for an optional string and an optional number. *)
Definition string_or (x : option string) (d : string) : string :=
  match x with Some s => Js.or_string s d | None => d end.
Definition number_or (x : option Js.number) (d : Js.number) : Js.number :=
  match x with Some n => Js.or_number n d | None => d end.

(** What a call leaves: the value its promise settles with and the lines it
    wrote with [console.error]. *)
Record Outcome := {
  returned : Js.completion Js.value;
  console : list (string * Js.error)
}.

(** [try { return body } catch (err) { console.error(label, err); return null }] *)
Definition try_or_null (label : string) (body : Js.completion Js.value) : Outcome :=
  match body with
  | Js.Normal v => {| returned := Js.Normal v; console := [] |}
  | Js.Throws err => {| returned := Js.Normal Js.Null; console := [(label, err)] |}
  end.

Section Client.

(** [import.meta.env.VITE_API_BASE] and the network. *)
Variable VITE_API_BASE : option string.
Variable fetch : Network.

Definition API_BASE : string := string_or VITE_API_BASE "http://localhost:8000".

Definition post_json (payload : Js.value) : RequestInit :=
  {| method := "POST";
     headers := [("Content-Type", "application/json")];
     body := Some payload |}.

Definition registerStrategy (strategyName coin : string) (params : any) : Outcome :=
  try_or_null "registerStrategy error"
    (params' ← toJSON params;
     res ← fetch (API_BASE ++ "/api/strategies/register")
             (post_json (Js.Object [("strategy_name", Js.String strategyName);
                                    ("coin", Js.String coin);
                                    ("params", params')]));
     json res).

Definition unregisterStrategy (strategyId : string) : Outcome :=
  try_or_null "unregisterStrategy error"
    (res ← fetch (API_BASE ++ "/api/strategies/unregister")
             (post_json (Js.Object [("strategy_id", Js.String strategyId)]));
     json res).

Definition startEngine (opts : StartOptions) : Outcome :=
  try_or_null "startEngine error"
    (let body :=
       Js.Object [("data_source", Js.String (string_or (data_source opts) "synthetic"));
                  ("coins", Js.String (string_or (coins opts) "BTC,ETH,BNB"));
                  ("interval", Js.Number (number_or (interval opts) 1%Q))] in
     res ← fetch (API_BASE ++ "/api/engine/start") (post_json body);
     json res).

Definition stopEngine : Outcome :=
  try_or_null "stopEngine error"
    (res ← fetch (API_BASE ++ "/api/engine/stop")
             {| method := "POST"; headers := []; body := None |};
     json res).

(** [fetch(url)] with no second argument is a GET without a body. *)
Definition get : RequestInit := {| method := "GET"; headers := []; body := None |}.

(** [if (!res.ok) throw new Error(message); return await res.json();] *)
Definition json_if_ok (message : string) (res : Response) : Js.completion Js.value :=
  if negb (ok res) then Js.Throws (Js.Error message) else json res.

Definition fetchInitialMetrics : Outcome :=
  try_or_null "fetchInitialMetrics error"
    (res ← fetch (API_BASE ++ "/metrics") get;
     json_if_ok "Failed to fetch metrics" res).

Definition fetchInitialTrades : Outcome :=
  try_or_null "fetchInitialTrades error"
    (res ← fetch (API_BASE ++ "/trades") get;
     json_if_ok "Failed to fetch trades" res).

Definition fetchStrategies : Outcome :=
  try_or_null "fetchStrategies error"
    (res ← fetch (API_BASE ++ "/api/strategies") get;
     json_if_ok "Failed to fetch strategies" res).

(** [JSON.stringify] of an array of [any]: it throws if it throws on an
    element. *)
Fixpoint toJSONs (items : list any) : Js.completion (list Js.value) :=
  match items with
  | [] => Js.Normal []
  | item :: items =>
      v ← toJSON item; vs ← toJSONs items; mret (v :: vs)
  end.

(** [runBacktest]; [coins] that is left out is [None], and then the body
    has no [coins]. *)
Definition runBacktest (csvPath : string) (strategyConfigs : list any)
    (coins : option (list string)) : Outcome :=
  try_or_null "runBacktest error"
    (configs ← toJSONs strategyConfigs;
     res ← fetch (API_BASE ++ "/api/optimization/backtest")
             (post_json
                (Js.Object
                   ([("csv_path", Js.String csvPath);
                     ("strategy_configs", Js.Array configs)]
                    ++ match coins with
                       | Some coins => [("coins", Js.Array (map Js.String coins))]
                       | None => []
                       end)));
     json res).

Definition analyzeTrends (csvPath : string) : Outcome :=
  try_or_null "analyzeTrends error"
    (res ← fetch (API_BASE ++ "/api/trend-analysis/analyze")
             (post_json (Js.Object [("csv_path", Js.String csvPath)]));
     json res).

Definition getCopilotActiveAlerts : Outcome :=
  try_or_null "getCopilotActiveAlerts error"
    (res ← fetch (API_BASE ++ "/api/copilot/active-alerts") get;
     json res).

End Client.

End ApiClient.

(** ** hooks/useWebSocketManager.tsx *)

Module WebSocketManager.

(** The connection state of [WebSocketProvider].  [reconnectRef] holds
    milliseconds and is only ever assigned [0] or a minimum with [30000] of
    a doubled value, so it is a non-negative integer.  [sockets] counts the
    calls of [new WebSocket]; [timers] are the delays of the pending
    [setTimeout(() => connect(), ...)] calls, oldest first. *)
Record State := {
  mounted : bool;
  connected : bool;
  reconnectRef : Z;
  sockets : nat;
  timers : list Z
}.

(** [a || b] on integers. *)
Definition or (a b : Z) : Z := if (a =? 0)%Z then b else a.

(** [connect()]: a new socket. *)
Definition connect (st : State) : State :=
  {| mounted := mounted st; connected := connected st;
     reconnectRef := reconnectRef st; sockets := S (sockets st);
     timers := timers st |}.

(** The effect hook: [let mounted = true; ...; connect()]. *)
Definition mount : State :=
  connect {| mounted := true; connected := false; reconnectRef := 0;
             sockets := 0; timers := [] |}.

(** [ws.onopen] *)
Definition onopen (st : State) : State :=
  {| mounted := mounted st;
     connected := if mounted st then true else connected st;
     reconnectRef := 0; sockets := sockets st; timers := timers st |}.

(** [Math.min(30000, (reconnectRef.current || 1000) * 2 || 1000)] *)
Definition backoff (current : Z) : Z :=
  Z.min 30000 (or (or current 1000 * 2) 1000).

(** [ws.onclose] *)
Definition onclose (st : State) : State :=
  if negb (mounted st) then st
  else
    let next := backoff (reconnectRef st) in
    {| mounted := true; connected := false; reconnectRef := next;
       sockets := sockets st; timers := timers st ++ [or next 1000] |}.

(** The oldest timer fires: [connect()]. *)
Definition ontimeout (st : State) : State :=
  match timers st with
  | [] => st
  | _ :: rest =>
      connect {| mounted := mounted st; connected := connected st;
                 reconnectRef := reconnectRef st; sockets := sockets st;
                 timers := rest |}
  end.

(** The cleanup of the effect hook: [mounted = false]; the socket it closes
    reports that with a later close event. *)
Definition unmount (st : State) : State :=
  {| mounted := false; connected := connected st;
     reconnectRef := reconnectRef st; sockets := sockets st;
     timers := timers st |}.

(** What can happen to the provider.  [ws.onerror] closes the socket, which
    the browser reports with a close event of its own. *)
Inductive Event := Open | Close | Failure | Timeout | Unmount.

Definition step (st : State) (e : Event) : State :=
  match e with
  | Open => onopen st
  | Close => onclose st
  | Failure => st
  | Timeout => ontimeout st
  | Unmount => unmount st
  end.

Definition run (events : list Event) (st : State) : State :=
  fold_left step events st.


(** The delay before the retry that follows the [n]-th failure in a row
    ([n] counted from 1). *)
Fixpoint delay (n : nat) : Z :=
  match n with
  | O => 0
  | S n => backoff (delay n)
  end.

(** The listeners of [listenersRef], a [Set] of functions: the references
    of the functions, in the order they were added and without repetition,
    which is the order [forEach] visits them in. *)
Definition Listeners := list nat.

(** [listenersRef.current.add(fn)] *)
Definition add (fn : nat) (listeners : Listeners) : Listeners :=
  if bool_decide (fn ∈ listeners) then listeners else (listeners ++ [fn])%list.

(** [listenersRef.current.delete(fn)], which the function that
    [addListener] returns calls. *)
Definition delete (fn : nat) (listeners : Listeners) : Listeners :=
  List.filter (fun other => negb (Nat.eqb other fn)) listeners.

(** What the arrival of a message leaves: the calls of listeners, in order,
    each with the value it was given; the lines written with
    [console.warn]; and the time given to [setLastSeen], if it was called. *)
Record Delivery := {
  calls : list (nat * Js.value);
  warnings : list (string * Js.error);
  lastSeen : option Z
}.

Section OnMessage.

(** [JSON.parse], and what the call of each listener does: it returns or
    it throws.  A listener is taken not to change the set of listeners. *)
Variable JSON_parse : string -> Js.completion Js.value.
Variable call : nat -> Js.value -> Js.completion unit.

(** The callback of [forEach]:
    [try { fn(parsed); } catch (e) { console.warn('ws listener error', e); }] *)
Definition notify (parsed : Js.value) (d : Delivery) (fn : nat) : Delivery :=
  match call fn parsed with
  | Js.Normal _ =>
      {| calls := calls d ++ [(fn, parsed)]; warnings := warnings d;
         lastSeen := lastSeen d |}
  | Js.Throws e =>
      {| calls := calls d ++ [(fn, parsed)];
         warnings := warnings d ++ [("ws listener error", e)];
         lastSeen := lastSeen d |}
  end.

(** [ws.onmessage] for the message text [data] at time [now]. *)
Definition onmessage (mounted : bool) (listeners : Listeners) (now : Z) (data : string)
  : Delivery :=
  if negb mounted then {| calls := []; warnings := []; lastSeen := None |}
  else
    let seen := {| calls := []; warnings := []; lastSeen := Some now |} in
    match JSON_parse data with
    | Js.Normal parsed => fold_left (notify parsed) listeners seen
    | Js.Throws err =>
        {| calls := []; warnings := [("ws parse error", err)]; lastSeen := Some now |}
    end.

End OnMessage.

End WebSocketManager.

(** ** The live trading dashboard (unnamed/part_005) *)

Module LiveTradingDashboard.
Import MockData.

(** [{ ...p, status }] *)
Definition withStatus (status : string) (p : LiveTradeData) : LiveTradeData :=
  {| l_coin := l_coin p; l_strategy := l_strategy p;
     l_currentPrice := l_currentPrice p; pnl24h := pnl24h p;
     return24h := return24h p; l_status := status; trades24h := trades24h p |}.

(** [activeStrategies] *)
Definition activeStrategies (liveData : list LiveTradeData) : nat :=
  length (List.filter (fun d => String.eqb (l_status d) "ACTIVE") liveData).

(** [parts.slice(1).join('_') || parts[1] || 'SMA_Crossover'] *)
Definition nameOf (parts : list string) : string :=
  Js.or_string (Js.join "_" (tl parts))
    (match nth_error parts 1 with
     | Some part => Js.or_string part "SMA_Crossover"
     | None => "SMA_Crossover"
     end).

Section Handlers.

Variable VITE_API_BASE : option string.
Variable fetch : ApiClient.Network.

(** The rows after [handleStartAll]: the call of [startEngine] is in a
    [try] block, and the rows change [if (res)]. *)
Definition handleStartAll (liveData : list LiveTradeData) : list LiveTradeData :=
  match ApiClient.returned
          (ApiClient.startEngine VITE_API_BASE fetch
             {| ApiClient.data_source := Some "synthetic";
                ApiClient.coins := Some "BTC,ETH";
                ApiClient.interval := Some 1%Q |}) with
  | Js.Normal res =>
      if Js.truthy res then map (withStatus "ACTIVE") liveData else liveData
  | Js.Throws _ => liveData
  end.

(** The rows after [handlePauseAll]. *)
Definition handlePauseAll (liveData : list LiveTradeData) : list LiveTradeData :=
  match ApiClient.returned (ApiClient.stopEngine VITE_API_BASE fetch) with
  | Js.Normal res =>
      if Js.truthy res then map (withStatus "PAUSED") liveData else liveData
  | Js.Throws _ => liveData
  end.

(** [toggleStrategy(item)]: the call of the client it awaits, and the rows
    after it. *)
Definition toggleStrategy (item : LiveTradeData) (liveData : list LiveTradeData)
  : ApiClient.Outcome * list LiveTradeData :=
  let strategyId := l_strategy item in
  if String.eqb (l_status item) "ACTIVE" then
    (ApiClient.unregisterStrategy VITE_API_BASE fetch strategyId,
     map (fun p => if String.eqb (l_strategy p) strategyId
                   then withStatus "PAUSED" p else p) liveData)
  else
    let parts := Js.split "_" strategyId in
    let coin := Js.or_string (l_coin item) (hd "" parts) in
    let name := nameOf parts in
    (ApiClient.registerStrategy VITE_API_BASE fetch name coin
       (ApiClient.Plain (Js.Object [])),
     map (fun p => if String.eqb (l_strategy p) strategyId
                   then withStatus "ACTIVE" p else p) liveData).

End Handlers.

End LiveTradingDashboard.

(** * The engine core

    The engine (ingestion pipeline, dispatcher, worker pool, shared state
    store) is Python code of the repository that is not among its sources;
    the sources only document it.  The modules below follow the words of the
    specification (sections 3 to 5 and 7).  The quantities of the
    specification are exact, so they are rationals here. *)

Module Engine.
#[local] Open Scope Q_scope.

Inductive Action := Buy | Sell.
Inductive Status := Active | Idle | Paused | Failed.

(** Modelled from the spec: the Tick of section 3, which the missing data
    sources produce. *)
Record Tick := {
  instrumentId : string;
  price : Q;
  volume : Q;
  timestamp : Z
}.

(** Modelled from the spec: the OrderIntent of section 3, the result of a
    strategy evaluation of the missing worker pool. *)
Record OrderIntent := {
  action : Action;
  quantity : Q
}.

(** Modelled from the spec: the TradeRecord of section 3, kept by the
    missing shared state store. *)
Record TradeRecord := {
  t_instrumentId : string;
  t_strategyId : string;
  t_action : Action;
  t_price : Q;
  t_quantity : Q;
  t_timestamp : Z;
  realizedPnL : Q
}.

(** Modelled from the spec: the aggregates of GlobalMetrics and
    StrategyMetrics of the missing store that the properties below are
    about (trade count, gross profit, gross loss, net P&L).  The specification
    does not say on which side a trade with a realized P&L of zero counts,
    so the counts of winners and losers are left out, as are the drawdown
    and exposure accumulators it does not define. *)
Record Metrics := {
  totalTrades : nat;
  grossProfit : Q;
  grossLoss : Q;
  netPnL : Q
}.

Definition noMetrics : Metrics :=
  {| totalTrades := 0; grossProfit := 0; grossLoss := 0; netPnL := 0 |}.

(** Modelled from the spec: the position size and average entry price of a
    StrategyInstance of the missing registry; the size is signed, positive
    for a long position and negative for a short one. *)
Record Position := {
  size : Q;
  entryPrice : Q
}.

Definition noPosition : Position := {| size := 0; entryPrice := 0 |}.

(** Modelled from the spec: the state of the missing shared state store of
    section 4.4, with the error counter per strategy of section 7. *)
Record Store := {
  globalMetrics : Metrics;
  strategyMetrics : gmap string Metrics;
  positions : gmap string Position;
  trades : list TradeRecord;
  errorCounts : gmap string nat
}.

Definition emptyStore : Store :=
  {| globalMetrics := noMetrics; strategyMetrics := ∅; positions := ∅;
     trades := []; errorCounts := ∅ |}.

Definition positive (x : Q) : bool := negb (Qle_bool x 0).
Definition negative (x : Q) : bool := negb (Qle_bool 0 x).

(** Modelled from the spec: whether an action closes or reduces a position
    (section 4.4): a sale against a long position, a purchase against a
    short one. *)
Definition closes (p : Position) (a : Action) : bool :=
  match a with
  | Sell => positive (size p)
  | Buy => negative (size p)
  end.

(** Modelled from the spec: the realized P&L that the missing [recordTrade]
    computes, (exit price - entry price) x quantity signed by the direction
    of the position, and zero for a trade that opens or adds. *)
Definition realize (p : Position) (a : Action) (exit qty : Q) : Q :=
  if closes p a then
    match a with
    | Sell => (exit - entryPrice p) * qty
    | Buy => (entryPrice p - exit) * qty
    end
  else 0.

(** Modelled from the spec: the update of position size and average entry
    price by the missing [recordTrade]: a closing trade changes the size
    and keeps the entry price, an opening or adding trade averages the
    entry price over the new size. *)
Definition trade_position (p : Position) (a : Action) (exit qty : Q) : Position :=
  let delta := match a with Buy => qty | Sell => - qty end in
  if closes p a then
    {| size := size p + delta; entryPrice := entryPrice p |}
  else
    {| size := size p + delta;
       entryPrice := (Qabs (size p) * entryPrice p + qty * exit) / (Qabs (size p) + qty) |}.

(** Modelled from the spec: the update of one set of aggregates by a trade
    in the missing [recordTrade]. *)
Definition count_trade (pnl : Q) (m : Metrics) : Metrics :=
  {| totalTrades := S (totalTrades m);
     grossProfit := if positive pnl then grossProfit m + pnl else grossProfit m;
     grossLoss := if negative pnl then grossLoss m - pnl else grossLoss m;
     netPnL := netPnL m + pnl |}.

(** Modelled from the spec: the body of the critical section of the missing
    [recordTrade] of section 4.4 for the intent of strategy [sid] on [tick]:
    update the position, compute the realized P&L, update the global and
    the strategy's aggregates, append the record. *)
Definition recordTrade (sid : string) (tick : Tick) (intent : OrderIntent) (st : Store)
  : Store :=
  let p := default noPosition (positions st !! sid) in
  let pnl := realize p (action intent) (price tick) (quantity intent) in
  let record :=
    {| t_instrumentId := instrumentId tick; t_strategyId := sid;
       t_action := action intent; t_price := price tick;
       t_quantity := quantity intent; t_timestamp := timestamp tick;
       realizedPnL := pnl |} in
  {| globalMetrics := count_trade pnl (globalMetrics st);
     strategyMetrics :=
       <[sid := count_trade pnl (default noMetrics (strategyMetrics st !! sid))]>
         (strategyMetrics st);
     positions :=
       <[sid := trade_position p (action intent) (price tick) (quantity intent)]>
         (positions st);
     trades := trades st ++ [record];
     errorCounts := errorCounts st |}.

(** Modelled from the spec: the outcome of [Strategy.evaluate] in a worker
    of the missing pool: an optional intent, or a thrown error. *)
Inductive Evaluation :=
| Returns (intent : option OrderIntent)
| Raises.

(** Modelled from the spec: a registered StrategyInstance of the missing
    registry; its evaluation is a function of the tick alone. *)
Record StrategyInstance := {
  s_instrument : string;
  s_name : string;
  s_status : Status;
  evaluate : Tick -> Evaluation
}.

(** Modelled from the spec: the strategyId of an (instrument, strategy)
    pair, as in [BTC_SMA]. *)
Definition strategyId (s : StrategyInstance) : string :=
  s_instrument s ++ "_" ++ s_name s.

(** Modelled from the spec: the per-strategy error count of section 7 that
    the missing result collection keeps. *)
Definition count_error (sid : string) (st : Store) : Store :=
  {| globalMetrics := globalMetrics st; strategyMetrics := strategyMetrics st;
     positions := positions st; trades := trades st;
     errorCounts := <[sid := S (default O (errorCounts st !! sid))]> (errorCounts st) |}.

(** Modelled from the spec: the missing result collection: an error is
    caught and counted for its strategy, no intent is a no-op, an intent is
    recorded. *)
Definition collect (s : StrategyInstance) (tick : Tick) (st : Store) : Store :=
  match evaluate s tick with
  | Raises => count_error (strategyId s) st
  | Returns None => st
  | Returns (Some intent) => recordTrade (strategyId s) tick intent st
  end.

(** Modelled from the spec: whether the missing dispatcher submits a
    strategy for a tick (section 4.2): the instrument matches and the
    status is Active. *)
Definition interested (tick : Tick) (s : StrategyInstance) : bool :=
  String.eqb (s_instrument s) (instrumentId tick)
  && match s_status s with Active => true | _ => false end.

(** Modelled from the spec: the missing dispatcher on one tick: one
    evaluation per interested strategy, results collected in turn. *)
Definition processTick (registry : list StrategyInstance) (st : Store) (tick : Tick)
  : Store :=
  fold_left (fun st s => if interested tick s then collect s tick st else st)
    registry st.

(** Modelled from the spec: the missing dispatcher on a batch of ticks, in
    the order they were enqueued. *)
Definition processBatch (registry : list StrategyInstance) (ticks : list Tick) (st : Store)
  : Store :=
  fold_left (processTick registry) ticks st.

(** Modelled from the spec: [unregisterStrategy] of the missing registry
    (section 4.5): the instance leaves the lookup table of the dispatcher. *)
Definition unregister (sid : string) (registry : list StrategyInstance)
  : list StrategyInstance :=
  List.filter (fun s => negb (String.eqb (strategyId s) sid)) registry.

End Engine.

(** ** The mutual exclusion of the shared state store *)

Module SharedStateStore.

Section Model.

(** The record a worker submits. *)
Variable Trade : Type.

(** Modelled from the spec: where a worker is in the missing [recordTrade]
    of section 4.4: outside the critical section, holding the lock, having
    read the trade count, having written it back incremented, having
    appended the record. *)
Inductive Progress :=
| Outside
| Holding
| Loaded (count : nat)
| Counted
| Appended.

(** Modelled from the spec: a worker of the missing pool handing its
    results to the store: the trades it has yet to record, the first of
    them being the one in progress. *)
Record Worker := {
  todo : list Trade;
  progress : Progress
}.

(** Modelled from the spec: the missing shared state store with its lock
    (sections 4.4 and 5): the holder of the lock, the trade count of the
    global aggregates, the history, and the workers. *)
Record State := {
  lock : option nat;
  totalTrades : nat;
  trades : list Trade;
  workers : list Worker
}.

(** Modelled from the spec: the start of a run of the missing engine:
    worker [w] has the trades [jobs !! w] to submit. *)
Definition start (jobs : list (list Trade)) : State :=
  {| lock := None; totalTrades := 0; trades := [];
     workers := map (fun js => {| todo := js; progress := Outside |}) jobs |}.

(** Modelled from the spec: one atomic step of worker [w] in the missing
    [recordTrade]; [None] when the worker has nothing to do or waits for
    the lock.  Acquiring needs the lock free; the count is read and written
    back in two steps; releasing ends the trade. *)
Definition step (w : nat) (st : State) : option State :=
  match workers st !! w with
  | None => None
  | Some wk =>
      match todo wk with
      | [] => None
      | t :: rest =>
          match progress wk with
          | Outside =>
              match lock st with
              | Some _ => None
              | None =>
                  Some {| lock := Some w; totalTrades := totalTrades st;
                          trades := trades st;
                          workers := <[w := {| todo := todo wk; progress := Holding |}]>
                                       (workers st) |}
              end
          | Holding =>
              Some {| lock := lock st; totalTrades := totalTrades st;
                      trades := trades st;
                      workers := <[w := {| todo := todo wk;
                                           progress := Loaded (totalTrades st) |}]>
                                   (workers st) |}
          | Loaded count =>
              Some {| lock := lock st; totalTrades := S count;
                      trades := trades st;
                      workers := <[w := {| todo := todo wk; progress := Counted |}]>
                                   (workers st) |}
          | Counted =>
              Some {| lock := lock st; totalTrades := totalTrades st;
                      trades := trades st ++ [t];
                      workers := <[w := {| todo := todo wk; progress := Appended |}]>
                                   (workers st) |}
          | Appended =>
              Some {| lock := None; totalTrades := totalTrades st;
                      trades := trades st;
                      workers := <[w := {| todo := rest; progress := Outside |}]>
                                   (workers st) |}
          end
      end
  end.

(** Modelled from the spec: an interleaving of the workers: the scheduler
    picks a worker at each turn, and a worker that cannot step keeps its
    turn idle. *)
Definition run (schedule : list nat) (st : State) : State :=
  fold_left (fun st w => default st (step w st)) schedule st.

(** Modelled from the spec: the missing [readSnapshot] of section 4.4,
    which takes the same lock for the time of the copy: it copies the count
    and the history when the lock is free, and waits otherwise. *)
Definition readSnapshot (st : State) : option (nat * list Trade) :=
  match lock st with
  | None => Some (totalTrades st, trades st)
  | Some _ => None
  end.

(** Every worker has recorded all its trades. *)
Definition finished (st : State) : Prop :=
  forall w wk, workers st !! w = Some wk -> todo wk = [].

End Model.

Arguments todo {Trade} _.
Arguments progress {Trade} _.
Arguments lock {Trade} _.
Arguments totalTrades {Trade} _.
Arguments trades {Trade} _.
Arguments workers {Trade} _.
Arguments start {Trade} jobs.
Arguments step {Trade} w st.
Arguments run {Trade} schedule st.
Arguments readSnapshot {Trade} st.
Arguments finished {Trade} st.

End SharedStateStore.

(** ** The bounded queue between producer and dispatcher *)

Module BoundedQueue.

Section Model.

Variable Tick : Type.

(** The capacity [C] of the queue. *)
Variable capacity : nat.

(** Modelled from the spec: the missing ingestion pipeline and dispatcher
    around their queue (sections 4.1, 4.2 and 5): the ticks the producer
    has read and not yet pushed, the queue, and the ticks the dispatcher
    has taken, each oldest first. *)
Record State := {
  pending : list Tick;
  queue : list Tick;
  dispatched : list Tick
}.

Definition start (ticks : list Tick) : State :=
  {| pending := ticks; queue := []; dispatched := [] |}.

(** Modelled from the spec: [push] of the missing queue: it blocks, here
    [None], when the queue is full, and then the tick stays with the
    producer. *)
Definition push (st : State) : option State :=
  match pending st with
  | [] => None
  | tick :: rest =>
      if (length (queue st) <? capacity)%nat
      then Some {| pending := rest; queue := queue st ++ [tick];
                   dispatched := dispatched st |}
      else None
  end.

(** Modelled from the spec: [pop] of the missing queue by the dispatcher:
    it blocks, here [None], when the queue is empty. *)
Definition pop (st : State) : option State :=
  match queue st with
  | [] => None
  | tick :: rest =>
      Some {| pending := pending st; queue := rest;
              dispatched := dispatched st ++ [tick] |}
  end.

Inductive Agent := Producer | Dispatcher.

Definition step (a : Agent) (st : State) : option State :=
  match a with
  | Producer => push st
  | Dispatcher => pop st
  end.

(** Modelled from the spec: an interleaving of producer and dispatcher; an
    agent that is blocked keeps its turn idle. *)
Definition run (schedule : list Agent) (st : State) : State :=
  fold_left (fun st a => default st (step a st)) schedule st.

End Model.

Arguments pending {Tick} _.
Arguments queue {Tick} _.
Arguments dispatched {Tick} _.
Arguments start {Tick} ticks.
Arguments push {Tick} capacity st.
Arguments pop {Tick} st.
Arguments step {Tick} capacity a st.
Arguments run {Tick} capacity schedule st.

End BoundedQueue.

(** * Properties *)

(** ** Comparisons of numbers *)

Lemma gt_true (a b : Js.number) : Js.gt a b = true <-> (b < a)%Q.
Proof.
  unfold Js.gt. rewrite negb_true_iff, <- not_true_iff_false, Qle_bool_iff.
  split; [apply Qnot_le_lt | apply Qlt_not_le].
Qed.

Lemma gt_false (a b : Js.number) : Js.gt a b = false <-> (a <= b)%Q.
Proof. unfold Js.gt. rewrite negb_false_iff. apply Qle_bool_iff. Qed.


(** ** The balance of the aggregates of the store *)

Section NetPnL.
Import Engine.
#[local] Open Scope Q_scope.










End NetPnL.

(** ** The trade-history filter and statistics *)

Section TradeHistory.
Import MockData TradeHistoryDashboard.

Lemma strict_ne_false (a b : string) : strict_ne a b = false <-> a = b.
Proof. unfold strict_ne. rewrite negb_false_iff. apply String.eqb_eq. Qed.

Lemma strict_ne_true (a b : string) : strict_ne a b = true <-> a <> b.
Proof. unfold strict_ne. rewrite negb_true_iff. apply String.eqb_neq. Qed.

(** One filter lets a field through when it is ['All'] or equal to it. *)
Lemma guard_passes (f x : string) :
  strict_ne f "All" && strict_ne x f = false <-> f = "All" \/ x = f.
Proof.
  rewrite andb_false_iff, !strict_ne_false. reflexivity.
Qed.

Lemma keeps_spec (filters : Filters) (trade : TradeRecord) :
  keeps filters trade = true <->
  (f_coin filters = "All" \/ coin trade = f_coin filters) /\
  (f_strategy filters = "All" \/ strategy trade = f_strategy filters) /\
  (f_status filters = "All" \/ status trade = f_status filters).
Proof.
  unfold keeps. rewrite <- !guard_passes.
  destruct (strict_ne (f_coin filters) "All" && _);
    destruct (strict_ne (f_strategy filters) "All" && _);
    destruct (strict_ne (f_status filters) "All" && _); intuition congruence.
Qed.

Lemma filter_all_true {A} (p : A -> bool) (l : list A) :
  (forall x, p x = true) -> List.filter p l = l.
Proof.
  intros Hp. induction l as [|x l IH]; simpl; [reflexivity|].
  rewrite Hp, IH. reflexivity.
Qed.

Lemma filteredTrades_all (filters : Filters) (trades : list TradeRecord) :
  f_coin filters = "All" -> f_strategy filters = "All" ->
  f_status filters = "All" ->
  filteredTrades filters trades = trades.
Proof.
  intros Hc Hs Ht. apply filter_all_true. intros t. apply keeps_spec. auto.
Qed.

(** C10. A trade is in [filteredTrades] exactly when it is in [trades] and
    each of the coin, strategy and status filters is ['All'] or equals the
    trade's field; with the three filters at ['All'], [filteredTrades] is
    the whole list, in order. *)
Theorem filteredTrades_pointwise_conjunction :
  (forall (filters : Filters) (trades : list TradeRecord) (trade : TradeRecord),
      In trade (filteredTrades filters trades) <->
      In trade trades /\
      (f_coin filters = "All" \/ coin trade = f_coin filters) /\
      (f_strategy filters = "All" \/ strategy trade = f_strategy filters) /\
      (f_status filters = "All" \/ status trade = f_status filters)) /\
  (forall (filters : Filters) (trades : list TradeRecord),
      f_coin filters = "All" -> f_strategy filters = "All" ->
      f_status filters = "All" ->
      filteredTrades filters trades = trades).
Proof.
  split.
  - intros filters trades trade. unfold filteredTrades.
    rewrite filter_In, keeps_spec. reflexivity.
  - apply filteredTrades_all.
Qed.

(** The filters the component starts with keep every trade. *)
Example filteredTrades_initially (trades : list TradeRecord) :
  filteredTrades initialFilters trades = trades.
Proof. apply filteredTrades_all; reflexivity. Qed.







End TradeHistory.

(** ** The best strategy of a backtest *)

Section BestStrategy.
Import MockData OptimizationDashboard.

(** [b] is at index [i] of [l], no row of [l] has a higher Sharpe ratio, and
    every row after index [i] has a strictly lower one. *)
Definition last_maximum (l : list BacktestResult) (b : BacktestResult) (i : nat) : Prop :=
  l !! i = Some b /\
  (forall r, In r l -> (sharpe r <= sharpe b)%Q) /\
  (forall j r, (i < j)%nat -> l !! j = Some r -> (sharpe r < sharpe b)%Q).

Lemma last_maximum_snoc l b i c :
  last_maximum l b i ->
  exists i', last_maximum (l ++ [c]) (better b c) i'.
Proof.
  intros (Hi & Hmax & Hlater). unfold better.
  destruct (Js.gt (sharpe b) (sharpe c)) eqn:Hgt.
  - apply gt_true in Hgt. exists i. split; [|split].
    + rewrite lookup_app_l; [exact Hi|]. eapply lookup_lt_Some, Hi.
    + intros r Hr. apply in_app_or in Hr as [Hr|[<-|[]]]; [auto|].
      apply Qlt_le_weak, Hgt.
    + intros j r Hj Hr. apply lookup_app_Some in Hr as [Hr|[Hlen Hr]]; [eauto|].
      apply list_lookup_singleton_Some in Hr as [_ <-]. exact Hgt.
  - apply gt_false in Hgt. exists (length l). split; [|split].
    + rewrite lookup_app_r, Nat.sub_diag by lia. reflexivity.
    + intros r Hr. apply in_app_or in Hr as [Hr|[<-|[]]]; [|apply Qle_refl].
      eapply Qle_trans; [apply Hmax, Hr|exact Hgt].
    + intros j r Hj Hr. apply lookup_lt_Some in Hr. rewrite length_app in Hr.
      simpl in Hr. lia.
Qed.

Lemma last_maximum_fold xs : forall l b i,
  last_maximum l b i ->
  exists i', last_maximum (l ++ xs) (fold_left better xs b) i'.
Proof.
  induction xs as [|c xs IH]; intros l b i H; simpl.
  - exists i. rewrite app_nil_r. exact H.
  - destruct (last_maximum_snoc l b i c H) as [i1 H1].
    destruct (IH _ _ _ H1) as [i2 H2]. exists i2.
    rewrite <- app_assoc in H2. exact H2.
Qed.

Lemma last_maximum_singleton x : last_maximum [x] x 0.
Proof.
  split; [reflexivity|]. split.
  - intros r [<-|[]]. apply Qle_refl.
  - intros j r Hj Hr. apply lookup_lt_Some in Hr. simpl in Hr. lia.
Qed.

(** C9. On a non-empty list of results, both dashboards compute a row of the
    list whose Sharpe ratio no row exceeds, and every row after it in the
    list has a strictly lower Sharpe ratio: of the rows with the highest
    Sharpe ratio it is the last. *)
Theorem bestStrategy_is_last_maximum (results : list BacktestResult) :
  results <> [] ->
  exists (best : BacktestResult) (i : nat),
    OptimizationDashboard.bestStrategy results = Js.Normal best /\
    BacktestDashboard.bestStrategy results = Js.Normal (BacktestDashboard.Row best) /\
    results !! i = Some best /\
    (forall r, In r results -> (sharpe r <= sharpe best)%Q) /\
    (forall j r, (i < j)%nat -> results !! j = Some r -> (sharpe r < sharpe best)%Q).
Proof.
  intros Hne. destruct results as [|x xs]; [congruence|].
  destruct (last_maximum_fold xs [x] x 0 (last_maximum_singleton x))
    as (i & Hi & Hmax & Hlater).
  exists (fold_left better xs x), i. simpl in Hi.
  repeat split; auto.
Qed.

(** The theorem at the rows of [generateBacktestResults]. *)
Lemma bestStrategy_is_last_maximum_witness :
  generateBacktestResults <> [] /\
  exists (best : BacktestResult) (i : nat),
    OptimizationDashboard.bestStrategy generateBacktestResults = Js.Normal best /\
    BacktestDashboard.bestStrategy generateBacktestResults
    = Js.Normal (BacktestDashboard.Row best) /\
    generateBacktestResults !! i = Some best /\
    (forall r, In r generateBacktestResults -> (sharpe r <= sharpe best)%Q) /\
    (forall j r, (i < j)%nat -> generateBacktestResults !! j = Some r ->
                 (sharpe r < sharpe best)%Q).
Proof.
  split; [discriminate|].
  apply (bestStrategy_is_last_maximum generateBacktestResults). discriminate.
Defined.

(** Two rows with the same Sharpe ratio, for the tie. *)
Definition rowA : BacktestResult :=
  {| r_strategy := "RSI"; r_coin := "SOL"; r_return := 10; sharpe := 3;
     cagr := 5; maxDD := -4; winRate := 60; trades := 10 |}%Q.
Definition rowB : BacktestResult :=
  {| r_strategy := "MACD"; r_coin := "XRP"; r_return := 12; sharpe := 3;
     cagr := 6; maxDD := -5; winRate := 62; trades := 11 |}%Q.

(** Of two rows with the same Sharpe ratio the later one is chosen. *)
Example bestStrategy_tie :
  OptimizationDashboard.bestStrategy [rowA; rowB] = Js.Normal rowB /\
  OptimizationDashboard.bestStrategy [rowB; rowA] = Js.Normal rowA.
Proof. split; reflexivity. Qed.

(** Without rows the first dashboard throws and the second shows its
    placeholder. *)
Example bestStrategy_empty :
  (exists e, OptimizationDashboard.bestStrategy [] = Js.Throws e) /\
  BacktestDashboard.bestStrategy []
  = Js.Normal (BacktestDashboard.Placeholder "N/A" "N/A" 0%Q 0%Q).
Proof. split; [eexists|]; reflexivity. Qed.

(** On the mock rows the best strategy is Momentum on ETH. *)
Example bestStrategy_mock :
  r_strategy <$> (match OptimizationDashboard.bestStrategy generateBacktestResults with
                  | Js.Normal b => Some b | Js.Throws _ => None end)
  = Some "Momentum".
Proof. reflexivity. Qed.

End BestStrategy.

(** ** The guards of the backtest submission *)

Section RunBacktest.
Import MockData BacktestDashboard.

(** One of the guards of [handleRunBacktest] refuses the submission: no
    file was uploaded, a date field is empty or is not a date, or the From
    date is strictly after the To date. *)
Definition blocked (b : Browser) (st : State) : Prop :=
  isFileUploaded st = false \/
  fromDate st = "" \/ toDate st = "" \/
  getTime b (fromDate st) = None \/ getTime b (toDate st) = None \/
  exists start end_,
    getTime b (fromDate st) = Some start /\ getTime b (toDate st) = Some end_ /\
    (end_ < start)%Z.

(** All the preconditions of the submission hold. *)
Definition ready (b : Browser) (st : State) : Prop :=
  isFileUploaded st = true /\
  fromDate st <> "" /\ toDate st <> "" /\
  exists start end_,
    getTime b (fromDate st) = Some start /\ getTime b (toDate st) = Some end_ /\
    (start <= end_)%Z.

Definition is_fetch (e : Effect) : bool :=
  match e with Fetch _ => true | _ => false end.

(** The network requests among the effects of a call. *)
Definition requests (effects : list Effect) : list Effect :=
  List.filter is_fetch effects.

Lemma blocked_or_ready (b : Browser) (st : State) :
  (blocked b st /\ ~ ready b st) \/ (ready b st /\ ~ blocked b st).
Proof.
  unfold blocked, ready.
  destruct (isFileUploaded st);
    [|left; split; [auto | intros [? _]; discriminate]].
  destruct (String.eqb_spec (fromDate st) "") as [Hf|Hf];
    [left; split; [auto | intros (_ & ? & _); contradiction]|].
  destruct (String.eqb_spec (toDate st) "") as [Ht|Ht];
    [left; split; [auto | intros (_ & _ & ? & _); contradiction]|].
  destruct (getTime b (fromDate st)) as [s|];
    [|left; split; [auto 6 | intros (_ & _ & _ & ? & ? & ? & _); discriminate]].
  destruct (getTime b (toDate st)) as [e|];
    [|left; split; [auto 6 | intros (_ & _ & _ & ? & ? & _ & ? & _); discriminate]].
  destruct (Z_lt_le_dec e s) as [Hlt|Hle].
  - left. split; [do 5 right; eauto|].
    intros (_ & _ & _ & s' & e' & [= <-] & [= <-] & ?). lia.
  - right. split; [repeat split; eauto|].
    intros [?|[?|[?|[?|[?|(s' & e' & [= <-] & [= <-] & ?)]]]]];
      try discriminate; try contradiction; lia.
Qed.

Lemma requests_afterFetch (b : Browser) (st st' : State) (effects : list Effect) :
  afterFetch b st = Js.Normal (st', effects) -> requests effects = [].
Proof.
  unfold afterFetch. destruct (fetch b (backtestRequest st)) as [response|]; simpl;
    [|discriminate].
  destruct (ok response).
  - destruct (json response) as [data|]; simpl; [|discriminate].
    destruct (get_results data) as [rows|]; simpl; [|discriminate].
    intros [= _ <-]. reflexivity.
  - intros [= _ <-]. unfold serverErrorAlert.
    destruct (_ ≫= _); reflexivity.
Qed.

(** C8. When a guard refuses, [handleRunBacktest] issues no network request
    and leaves the state of the component, [results] and [hasResults]
    included, as it was; a request is issued exactly when all
    the preconditions hold, and then it is the one backtest request. *)
Theorem handleRunBacktest_guarded (b : Browser) (st : State) :
  (blocked b st ->
     requests (snd (handleRunBacktest b st)) = [] /\
     fst (handleRunBacktest b st) = st /\
     results (fst (handleRunBacktest b st)) = results st /\
     hasResults (fst (handleRunBacktest b st)) = hasResults st) /\
  (requests (snd (handleRunBacktest b st)) <> [] <-> ready b st) /\
  (ready b st ->
     requests (snd (handleRunBacktest b st)) = [Fetch (backtestRequest st)]).
Proof.
  assert (Hblocked : blocked b st ->
            requests (snd (handleRunBacktest b st)) = [] /\
            fst (handleRunBacktest b st) = st).
  { unfold handleRunBacktest.
    intros [H|[H|[H|[H|[H|(s & e & Hs & He & Hlt)]]]]].
    - rewrite H. auto.
    - destruct (isFileUploaded st); simpl; [|auto]. rewrite H. auto.
    - destruct (isFileUploaded st); simpl; [|auto]. rewrite H.
      rewrite orb_true_r. auto.
    - destruct (isFileUploaded st); simpl; [|auto].
      destruct (_ || _); [auto|]. rewrite H. auto.
    - destruct (isFileUploaded st); simpl; [|auto].
      destruct (_ || _); [auto|]. rewrite H.
      destruct (getTime b (fromDate st)); auto.
    - destruct (isFileUploaded st); simpl; [|auto].
      destruct (_ || _); [auto|]. rewrite Hs, He.
      replace (s >? e)%Z with true by (symmetry; apply Z.gtb_lt; exact Hlt). auto. }
  assert (Hready : ready b st ->
            requests (snd (handleRunBacktest b st)) = [Fetch (backtestRequest st)]).
  { intros (Hup & Hf & Ht & s & e & Hs & He & Hle). unfold handleRunBacktest.
    rewrite Hup. simpl. apply String.eqb_neq in Hf, Ht. rewrite Hf, Ht. simpl.
    rewrite Hs, He.
    replace (s >? e)%Z with false by (symmetry; rewrite Z.gtb_ltb; apply Z.ltb_ge; exact Hle).
    destruct (afterFetch b _) as [[st2 effects]|err] eqn:E;
      cbn [snd]; unfold requests; cbn [List.filter is_fetch]; [|reflexivity].
    apply requests_afterFetch in E. unfold requests in E. rewrite E. reflexivity. }
  split; [|split].
  - intros H. destruct (Hblocked H) as [Hreq Hst]. rewrite Hst. auto.
  - split.
    + intros Hreq. destruct (blocked_or_ready b st) as [[Hb _]|[Hr _]]; [|exact Hr].
      destruct (Hblocked Hb) as [Hnone _]. contradiction.
    + intros Hr. rewrite (Hready Hr). discriminate.
  - exact Hready.
Qed.

(** A browser that reads the two default dates and has no server to
    reach. *)
Definition offline : Browser :=
  {| getTime := fun s =>
       if String.eqb s "2024-01-01" then Some 1704067200000%Z
       else if String.eqb s "2024-12-14" then Some 1734134400000%Z
       else None;
     fetch := fun _ => Js.Throws (Js.TypeError "Failed to fetch") |}.

Definition setIsFileUploaded (b : bool) (st : State) : State :=
  {| hasResults := hasResults st; results := results st; isRunning := isRunning st;
     isFileUploaded := b; uploadStatus := uploadStatus st;
     fileName := fileName st; fromDate := fromDate st; toDate := toDate st;
     capital := capital st; selectedStrategy := selectedStrategy st |}.

(** Before an upload the handler only raises its first alert. *)
Example handleRunBacktest_without_file :
  blocked offline initialState /\
  handleRunBacktest offline initialState
  = (initialState, [Alert "Please upload a CSV file first!"]).
Proof. split; [left; reflexivity|reflexivity]. Qed.

(** After an upload, with the default dates, the request is issued; the
    server being out of reach, the failure is logged and reported and the
    results stay as they were. *)
Example handleRunBacktest_with_file :
  ready offline (setIsFileUploaded true initialState) /\
  snd (handleRunBacktest offline (setIsFileUploaded true initialState))
  = [Fetch (backtestRequest (setIsFileUploaded true initialState));
     ConsoleError "Backtest error:" (Js.TypeError "Failed to fetch");
     Alert "Error connecting to backend."] /\
  fst (handleRunBacktest offline (setIsFileUploaded true initialState))
  = setIsFileUploaded true initialState.
Proof.
  split; [|split; reflexivity].
  repeat split; try discriminate.
  exists 1704067200000%Z, 1734134400000%Z. repeat split. lia.
Qed.

End RunBacktest.

(** ** The control functions of the API client *)

Section ControlSurface.
Import ApiClient.

Variable VITE_API_BASE : option string.
Variable fetch : Network.

(** The call wrote nothing but its result: it returned, and what it returned
    is [null] or the parsed body of a response the network gave. *)
Definition settles (o : Outcome) : Prop :=
  exists v, returned o = Js.Normal v /\
            (v = Js.Null \/
             exists url init res, fetch url init = Js.Normal res /\ json res = Js.Normal v).

Lemma try_or_null_returns label body :
  exists v, returned (try_or_null label body) = Js.Normal v /\
            (v = Js.Null \/ body = Js.Normal v).
Proof. destruct body as [v|e]; simpl; eauto. Qed.

Lemma fetch_json_settles label url init :
  settles (try_or_null label (res ← fetch url init; json res)).
Proof.
  destruct (try_or_null_returns label (res ← fetch url init; json res))
    as (v & Hv & [Hnull|Hbody]); exists v; split; auto.
  right. destruct (fetch url init) as [res|e] eqn:E; simpl in Hbody; [|discriminate].
  exists url, init, res. auto.
Qed.

(** C4. Each control function of the client returns for every input and
    every behaviour of the network, and returns [null] or the parsed body
    of the response; none ends with an exception. *)
Theorem control_functions_never_throw :
  (forall strategyName coin params,
      settles (registerStrategy VITE_API_BASE fetch strategyName coin params)) /\
  (forall strategyId, settles (unregisterStrategy VITE_API_BASE fetch strategyId)) /\
  (forall opts, settles (startEngine VITE_API_BASE fetch opts)) /\
  settles (stopEngine VITE_API_BASE fetch).
Proof.
  repeat split.
  - intros strategyName coin [v|]; unfold registerStrategy; simpl.
    + apply fetch_json_settles.
    + exists Js.Null. auto.
  - intros strategyId. apply fetch_json_settles.
  - intros opts. apply fetch_json_settles.
  - apply fetch_json_settles.
Qed.

End ControlSurface.

(** ** The reconnection backoff of the WebSocket provider *)

Section Reconnect.
Import WebSocketManager.

Lemma backoff_first : backoff 0 = 2000.
Proof. reflexivity. Qed.

Lemma backoff_doubles (d : Z) : 0 < d -> backoff d = Z.min 30000 (2 * d).
Proof.
  intros Hd. unfold backoff, or.
  destruct (d =? 0)%Z eqn:E; [apply Z.eqb_eq in E; lia|].
  destruct (d * 2 =? 0)%Z eqn:E2; [apply Z.eqb_eq in E2; lia|].
  f_equal. lia.
Qed.







(** The delays of the first six failures in a row. *)
Example delays_of_six_failures :
  map delay [1; 2; 3; 4; 5; 6]%nat = [2000; 4000; 8000; 16000; 30000; 30000].
Proof. reflexivity. Qed.

End Reconnect.

(** ** Realized P&L in the engine *)

Section RealizedPnL.
Import Engine.
#[local] Open Scope Q_scope.

(** The scenario of section 8: [BTC/SMA] buys 1.0 on the first tick and
    sells 1.0 on the second, [BTC/Momentum] emits nothing. *)
Definition tick1 : Tick :=
  {| instrumentId := "BTC"; price := 45000; volume := 1; timestamp := 0 |}.
Definition tick2 : Tick :=
  {| instrumentId := "BTC"; price := 45500; volume := 1; timestamp := 60 |}.

Definition sma : StrategyInstance :=
  {| s_instrument := "BTC"; s_name := "SMA"; s_status := Active;
     evaluate := fun tick =>
       if (timestamp tick =? 0)%Z
       then Returns (Some {| action := Buy; quantity := 1 |})
       else Returns (Some {| action := Sell; quantity := 1 |}) |}.

Definition momentum : StrategyInstance :=
  {| s_instrument := "BTC"; s_name := "Momentum"; s_status := Active;
     evaluate := fun _ => Returns None |}.



End RealizedPnL.

(** ** Isolation of a failing strategy *)

Section Isolation.
Import Engine.

(** The trades of the history that are attributed to [sid]. *)
Definition tradesOf (sid : string) (st : Store) : list TradeRecord :=
  List.filter (fun r => String.eqb (t_strategyId r) sid) (trades st).

(** Two stores agree on strategy [sid]: its aggregates, its position, its
    error count and its trades are the same. *)
Definition agree (sid : string) (st1 st2 : Store) : Prop :=
  strategyMetrics st1 !! sid = strategyMetrics st2 !! sid /\
  positions st1 !! sid = positions st2 !! sid /\
  errorCounts st1 !! sid = errorCounts st2 !! sid /\
  tradesOf sid st1 = tradesOf sid st2.

Lemma agree_refl sid st : agree sid st st.
Proof. repeat split. Qed.

Lemma agree_trans sid st1 st2 st3 :
  agree sid st1 st2 -> agree sid st2 st3 -> agree sid st1 st3.
Proof.
  intros (H1 & H2 & H3 & H4) (K1 & K2 & K3 & K4).
  repeat split; etransitivity; eassumption.
Qed.

(** What another strategy collects leaves [sid] alone. *)
Lemma collect_other sid s tick st :
  strategyId s <> sid -> agree sid (collect s tick st) st.
Proof.
  intros Hne. unfold collect, agree, tradesOf.
  destruct (evaluate s tick) as [[intent|]|]; simpl;
    rewrite ?lookup_insert_ne by exact Hne; repeat split.
  rewrite List.filter_app. simpl.
  apply String.eqb_neq in Hne. rewrite Hne. apply app_nil_r.
Qed.

(** What a strategy collects depends, for that strategy, on its own entries
    only. *)
Lemma collect_same s tick st1 st2 :
  agree (strategyId s) st1 st2 ->
  agree (strategyId s) (collect s tick st1) (collect s tick st2).
Proof.
  intros (H1 & H2 & H3 & H4). unfold collect, agree, tradesOf in *.
  destruct (evaluate s tick) as [[intent|]|]; simpl;
    rewrite ?lookup_insert_eq, ?H1, ?H2, ?H3; repeat split; try assumption.
  rewrite !List.filter_app, H4. reflexivity.
Qed.

Lemma collect_agree sid s tick st1 st2 :
  agree sid st1 st2 -> agree sid (collect s tick st1) (collect s tick st2).
Proof.
  intros H. destruct (String.eqb_spec (strategyId s) sid) as [<-|Hne].
  - apply collect_same, H.
  - eapply agree_trans; [apply collect_other, Hne|].
    eapply agree_trans; [exact H|].
    destruct (collect_other sid s tick st2 Hne) as (K1 & K2 & K3 & K4).
    repeat split; symmetry; assumption.
Qed.

Lemma processTick_agree sid bad registry tick : forall st1 st2,
  sid <> bad ->
  agree sid st1 st2 ->
  agree sid (processTick registry st1 tick)
            (processTick (unregister bad registry) st2 tick).
Proof.
  unfold processTick.
  induction registry as [|s registry IH]; intros st1 st2 Hne H; simpl; [exact H|].
  destruct (String.eqb_spec (strategyId s) bad) as [Hbad|Hother]; simpl.
  - apply IH; [exact Hne|].
    destruct (interested tick s); [|exact H].
    eapply agree_trans; [apply collect_other; congruence|exact H].
  - apply IH; [exact Hne|].
    destruct (interested tick s); [|exact H].
    apply collect_agree, H.
Qed.

Lemma processBatch_agree sid bad registry ticks : forall st1 st2,
  sid <> bad ->
  agree sid st1 st2 ->
  agree sid (processBatch registry ticks st1)
            (processBatch (unregister bad registry) ticks st2).
Proof.
  unfold processBatch.
  induction ticks as [|tick ticks IH]; intros st1 st2 Hne H; simpl; [exact H|].
  apply IH; [exact Hne|]. apply processTick_agree; assumption.
Qed.

(** C7. An evaluation that throws is collected as one more error of its
    strategy and nothing else: the global aggregates, the aggregates and
    positions of all strategies and the history are as before, and so
    are the error counts of the other strategies.  And for a strategy [sid]
    other than [bad], a batch of ticks leaves the same aggregates, position,
    error count and trades as it does with [bad] not registered: the other
    evaluations are collected all the same. *)
Theorem failing_strategy_is_isolated
    (registry : list StrategyInstance) (bad sid : string)
    (ticks : list Tick) (st : Store) :
  sid <> bad ->
  (forall s tick st',
      evaluate s tick = Raises ->
      let after := collect s tick st' in
      globalMetrics after = globalMetrics st' /\
      strategyMetrics after = strategyMetrics st' /\
      positions after = positions st' /\
      trades after = trades st' /\
      errorCounts after !! strategyId s
      = Some (S (default O (errorCounts st' !! strategyId s))) /\
      (forall other, other <> strategyId s ->
                     errorCounts after !! other = errorCounts st' !! other)) /\
  let with_bad := processBatch registry ticks st in
  let without_bad := processBatch (unregister bad registry) ticks st in
  strategyMetrics with_bad !! sid = strategyMetrics without_bad !! sid /\
  positions with_bad !! sid = positions without_bad !! sid /\
  errorCounts with_bad !! sid = errorCounts without_bad !! sid /\
  tradesOf sid with_bad = tradesOf sid without_bad.
Proof.
  intros Hne. split.
  - intros s tick st' Hraises. unfold collect. rewrite Hraises. simpl.
    repeat split.
    + apply lookup_insert_eq.
    + intros other Hother. apply lookup_insert_ne. congruence.
  - exact (processBatch_agree sid bad registry ticks st st Hne (agree_refl sid st)).
Qed.

(** A strategy on BTC whose evaluation always throws. *)
Definition faulty : StrategyInstance :=
  {| s_instrument := "BTC"; s_name := "Faulty"; s_status := Active;
     evaluate := fun _ => Raises |}.

(** The theorem at the scenario with the throwing strategy registered
    between the two others: [BTC_SMA] ends with the same aggregates as
    without it, and the two errors are counted for [BTC_Faulty] alone. *)
Lemma failing_strategy_is_isolated_witness :
  "BTC_SMA" <> "BTC_Faulty" /\
  strategyMetrics (processBatch [sma; faulty; momentum] [tick1; tick2] emptyStore)
    !! "BTC_SMA"
  = strategyMetrics
      (processBatch (unregister "BTC_Faulty" [sma; faulty; momentum])
         [tick1; tick2] emptyStore)
    !! "BTC_SMA" /\
  errorCounts (processBatch [sma; faulty; momentum] [tick1; tick2] emptyStore)
  = {[ "BTC_Faulty" := 2%nat ]}.
Proof.
  split; [discriminate|]. split.
  - apply (failing_strategy_is_isolated [sma; faulty; momentum]
             "BTC_Faulty" "BTC_SMA" [tick1; tick2] emptyStore).
    discriminate.
  - apply map_eq. intros sid. vm_compute. reflexivity.
Defined.

End Isolation.

(** ** Backpressure of the bounded queue *)

Section Backpressure.
Import BoundedQueue.
#[local] Open Scope list_scope.
#[local] Open Scope nat_scope.

Variable Tick : Type.
Variable capacity : nat.

(** The turns that are still to be taken: two for a tick the producer
    holds, one for a tick in the queue. *)
Definition turns_left (st : State Tick) : nat :=
  2 * length (pending st) + length (queue st).

(** No tick is lost, duplicated or reordered: the ticks dispatched, queued
    and pending are, in this order, the ticks of the source. *)
Definition conserved (ticks : list Tick) (st : State Tick) : Prop :=
  dispatched st ++ queue st ++ pending st = ticks.

Lemma step_conserved ticks a (st st' : State Tick) :
  step capacity a st = Some st' ->
  length (queue st) <= capacity /\ conserved ticks st ->
  length (queue st') <= capacity /\ conserved ticks st'.
Proof.
  unfold conserved. destruct a; simpl; cbv [push pop].
  - destruct (pending st) as [|tick rest] eqn:Ep; [discriminate|].
    destruct (length (queue st) <? capacity) eqn:Hlt; [|discriminate].
    intros [= <-] [Hlen Hcons]. simpl. apply Nat.ltb_lt in Hlt. split.
    + rewrite length_app. simpl. lia.
    + rewrite <- Hcons, <- !app_assoc. reflexivity.
  - destruct (queue st) as [|tick rest] eqn:Eq; [discriminate|].
    intros [= <-] [Hlen Hcons]. simpl in *. split; [lia|].
    rewrite <- Hcons, <- !app_assoc. reflexivity.
Qed.

Lemma run_conserved ticks schedule : forall st,
  length (queue st) <= capacity /\ conserved ticks st ->
  length (queue (run capacity schedule st)) <= capacity /\
  conserved ticks (run capacity schedule st).
Proof.
  induction schedule as [|a schedule IH]; intros st H; simpl; [exact H|].
  apply IH. destruct (step capacity a st) as [st'|] eqn:E; simpl; [|exact H].
  eapply step_conserved; eassumption.
Qed.

Lemma step_turns a (st st' : State Tick) :
  step capacity a st = Some st' -> turns_left st' < turns_left st.
Proof.
  unfold turns_left. destruct a; simpl; cbv [push pop].
  - destruct (pending st) as [|tick rest]; [discriminate|].
    destruct (length (queue st) <? capacity); [|discriminate].
    intros [= <-]. simpl. rewrite length_app. simpl. lia.
  - destruct (queue st) as [|tick rest]; [discriminate|].
    intros [= <-]. simpl. lia.
Qed.

Lemma full_queue_blocks (st : State Tick) :
  length (queue st) = capacity -> push capacity st = None.
Proof.
  intros H. cbv [push]. destruct (pending st); [reflexivity|].
  rewrite H, Nat.ltb_irrefl. reflexivity.
Qed.

Lemma not_stuck ticks (st : State Tick) :
  1 <= capacity ->
  conserved ticks st ->
  dispatched st <> ticks ->
  exists a st', step capacity a st = Some st'.
Proof.
  intros Hcap Hcons Hnot. destruct (queue st) as [|tick rest] eqn:Eq.
  - destruct (pending st) as [|tick rest] eqn:Ep.
    + exfalso. apply Hnot. unfold conserved in Hcons.
      rewrite Eq, Ep, !app_nil_r in Hcons. exact Hcons.
    + exists Producer. simpl. cbv [push]. rewrite Ep, Eq. simpl.
      replace (0 <? capacity) with true by (symmetry; apply Nat.ltb_lt; lia).
      eauto.
  - exists Dispatcher. simpl. cbv [pop]. rewrite Eq. eauto.
Qed.

Lemma drains ticks (Hcap : 1 <= capacity) : forall n st,
  turns_left st <= n ->
  conserved ticks st ->
  exists more, dispatched (run capacity more st) = ticks.
Proof.
  induction n as [|n IH]; intros st Hn Hcons.
  - exists []. simpl. unfold turns_left in Hn. unfold conserved in Hcons.
    destruct (pending st); [|simpl in Hn; lia].
    destruct (queue st); [|simpl in Hn; lia].
    rewrite !app_nil_r in Hcons. exact Hcons.
  - destruct (queue st) as [|tick rest] eqn:Eq.
    + destruct (pending st) as [|tick rest] eqn:Ep.
      * exists []. simpl. unfold conserved in Hcons.
        rewrite Eq, Ep, !app_nil_r in Hcons. exact Hcons.
      * destruct (not_stuck ticks st Hcap Hcons) as (a & st' & Hstep).
        { intros Hd. unfold conserved in Hcons. rewrite Hd, Eq, Ep in Hcons.
          apply (f_equal (@length Tick)) in Hcons. rewrite length_app in Hcons.
          simpl in Hcons. lia. }
        destruct (IH st') as [more Hmore].
        { apply step_turns in Hstep. lia. }
        { eapply (step_conserved ticks a st st' Hstep). split; [|exact Hcons].
          rewrite Eq. simpl. lia. }
        exists (a :: more). simpl. rewrite Hstep. exact Hmore.
    + destruct (IH {| pending := pending st; queue := rest;
                      dispatched := dispatched st ++ [tick] |}) as [more Hmore].
      { unfold turns_left in *. rewrite Eq in Hn. simpl in *. lia. }
      { unfold conserved in *. simpl. rewrite Eq in Hcons.
        rewrite <- Hcons, <- !app_assoc. reflexivity. }
      exists (Dispatcher :: more). simpl. cbv [pop]. rewrite Eq. exact Hmore.
Qed.

(** C3. With a queue of capacity [C >= 1], after any interleaving of
    producer and dispatcher: the queue holds at most [C] ticks; the ticks
    dispatched, queued and still with the producer are, in this order, the
    ticks of the source, so none was dropped; on a full queue the push
    blocks and the producer keeps its tick; while a tick is not yet
    dispatched one of the two can take a turn, every turn taken brings the
    end closer, and the run can be continued until every tick was
    dispatched. *)
Theorem bounded_queue_backpressure (ticks : list Tick) (schedule : list Agent) :
  1 <= capacity ->
  let st := run capacity schedule (start ticks) in
  length (queue st) <= capacity /\
  dispatched st ++ queue st ++ pending st = ticks /\
  (length (queue st) = capacity ->
     step capacity Producer st = None /\ run capacity [Producer] st = st) /\
  (dispatched st <> ticks -> exists a st', step capacity a st = Some st') /\
  (forall a st', step capacity a st = Some st' -> turns_left st' < turns_left st) /\
  (exists more, dispatched (run capacity (schedule ++ more) (start ticks)) = ticks).
Proof.
  intros Hcap st.
  destruct (run_conserved ticks schedule (start ticks)) as [Hlen Hcons].
  { split; [simpl; lia|reflexivity]. }
  fold st in Hlen, Hcons.
  split; [exact Hlen|]. split; [exact Hcons|]. split; [|split; [|split]].
  - intros Hfull. simpl. rewrite (full_queue_blocks st Hfull). auto.
  - apply not_stuck; assumption.
  - intros a st'. apply step_turns.
  - destruct (drains ticks Hcap (turns_left st) st (le_n _) Hcons) as [more Hmore].
    exists more. unfold run in *. rewrite fold_left_app. exact Hmore.
Qed.

End Backpressure.

(** The theorem at a queue of capacity 2 for four ticks, the producer
    taking three turns before the dispatcher takes one: its third push
    found the queue full and blocked. *)
Lemma bounded_queue_backpressure_witness :
  (1 <= 2)%nat /\
  BoundedQueue.run 2
    [BoundedQueue.Producer; BoundedQueue.Producer; BoundedQueue.Producer;
     BoundedQueue.Dispatcher]
    (BoundedQueue.start [10; 20; 30; 40]%Z)
  = {| BoundedQueue.pending := [30; 40]%Z; BoundedQueue.queue := [20]%Z;
       BoundedQueue.dispatched := [10]%Z |} /\
  exists more,
    BoundedQueue.dispatched
      (BoundedQueue.run 2
         ([BoundedQueue.Producer; BoundedQueue.Producer; BoundedQueue.Producer;
           BoundedQueue.Dispatcher] ++ more)%list
         (BoundedQueue.start [10; 20; 30; 40]%Z))
    = [10; 20; 30; 40]%Z.
Proof.
  split; [lia|]. split; [reflexivity|].
  apply (bounded_queue_backpressure Z 2 [10; 20; 30; 40]%Z
           [BoundedQueue.Producer; BoundedQueue.Producer; BoundedQueue.Producer;
            BoundedQueue.Dispatcher]).
  lia.
Defined.

(** ** No lost update in the shared state store *)

Section Interleaving.
Import SharedStateStore.
#[local] Open Scope list_scope.
#[local] Open Scope nat_scope.

Variable Trade : Type.

(** The trades a worker has not yet appended to the history. *)
Definition remaining (wk : Worker Trade) : list Trade :=
  match progress wk with
  | Appended => tail (todo wk)
  | _ => todo wk
  end.

Definition stage (p : Progress) : nat :=
  match p with
  | Outside => 0
  | Holding => 1
  | Loaded _ => 2
  | Counted => 3
  | Appended => 4
  end.

(** The steps a worker has still to take: five for each trade. *)
Definition cost (wk : Worker Trade) : nat :=
  match todo wk with
  | [] => 0
  | _ :: rest => 5 * length rest + (5 - stage (progress wk))
  end.

Definition steps_left (st : State Trade) : nat :=
  sum_list (map cost (workers st)).

(** What the holder of the lock has done so far to the count and to the
    history. *)
Definition holder_consistent (st : State Trade) (wk : Worker Trade) : Prop :=
  todo wk <> [] /\
  match progress wk with
  | Outside => False
  | Holding => totalTrades st = length (trades st)
  | Loaded count => count = totalTrades st /\ totalTrades st = length (trades st)
  | Counted => totalTrades st = S (length (trades st))
  | Appended => totalTrades st = length (trades st)
  end.

(** The invariant of the store under its lock: a worker that does not hold
    the lock is outside the critical section; with the lock free the count
    is the length of the history, and with the lock held the two differ by
    what the holder has done; the history and the trades still to be
    appended are together the trades submitted. *)
Definition consistent (jobs : list (list Trade)) (st : State Trade) : Prop :=
  (forall w wk, workers st !! w = Some wk -> lock st <> Some w ->
                progress wk = Outside) /\
  match lock st with
  | None => totalTrades st = length (trades st)
  | Some w => exists wk, workers st !! w = Some wk /\ holder_consistent st wk
  end /\
  trades st ++ concat (map remaining (workers st)) ≡ₚ concat jobs.

Lemma remaining_insert_same (ws : list (Worker Trade)) w wk wk' :
  ws !! w = Some wk ->
  remaining wk' = remaining wk ->
  map remaining (<[w := wk']> ws) = map remaining ws.
Proof.
  intros Hw Hsame. rewrite list_fmap_insert. apply list_insert_id.
  rewrite list_lookup_fmap, Hw. simpl. congruence.
Qed.

Lemma remaining_insert_head (ws : list (Worker Trade)) : forall w wk wk' t,
  ws !! w = Some wk ->
  remaining wk = t :: remaining wk' ->
  concat (map remaining ws) ≡ₚ t :: concat (map remaining (<[w := wk']> ws)).
Proof.
  induction ws as [|a ws IH]; intros [|w] wk wk' t Hw Hhead; try discriminate.
  - injection Hw as ->. simpl. rewrite Hhead. reflexivity.
  - simpl in *. rewrite (IH w wk wk' t Hw Hhead).
    symmetry. apply Permutation_middle.
Qed.

Lemma cost_insert (ws : list (Worker Trade)) : forall w wk wk',
  ws !! w = Some wk ->
  cost wk = S (cost wk') ->
  sum_list (map cost ws) = S (sum_list (map cost (<[w := wk']> ws))).
Proof.
  induction ws as [|a ws IH]; intros [|w] wk wk' Hw Hcost; try discriminate.
  - injection Hw as ->. simpl. rewrite Hcost. reflexivity.
  - simpl in *. rewrite (IH w wk wk' Hw Hcost). lia.
Qed.

Lemma start_consistent jobs : consistent jobs (start jobs).
Proof.
  split; [|split]; simpl.
  - intros w wk Hw _. rewrite list_lookup_fmap in Hw.
    destruct (jobs !! w); simpl in Hw; [|discriminate].
    injection Hw as <-. reflexivity.
  - reflexivity.
  - rewrite map_map. simpl. rewrite map_id. reflexivity.
Qed.

(** A worker inside the critical section holds the lock. *)
Lemma inside_holds jobs st w wk :
  consistent jobs st ->
  workers st !! w = Some wk ->
  progress wk <> Outside ->
  lock st = Some w /\ holder_consistent st wk.
Proof.
  intros (Hout & Hlock & _) Hw Hin.
  destruct (decide (lock st = Some w)) as [Heq|Hne].
  - split; [exact Heq|]. rewrite Heq in Hlock.
    destruct Hlock as (wk' & Hw' & Hh). congruence.
  - exfalso. apply Hin. exact (Hout w wk Hw Hne).
Qed.

Lemma lookup_after_insert (ws : list (Worker Trade)) w w' wk new wk' :
  ws !! w = Some wk ->
  <[w := new]> ws !! w' = Some wk' ->
  (w' = w /\ wk' = new) \/ (w' <> w /\ ws !! w' = Some wk').
Proof.
  intros Hw H. destruct (decide (w' = w)) as [->|Hne].
  - left. rewrite list_lookup_insert_eq in H by (eapply lookup_lt_Some, Hw).
    split; congruence.
  - right. rewrite list_lookup_insert_ne in H by congruence. auto.
Qed.

Lemma step_consistent jobs w st st' :
  step w st = Some st' ->
  consistent jobs st ->
  consistent jobs st' /\ steps_left st = S (steps_left st').
Proof.
  intros Hstep Hinv. unfold step in Hstep.
  destruct (workers st !! w) as [wk|] eqn:Hw; [|discriminate].
  destruct (todo wk) as [|t rest] eqn:Ht; [discriminate|].
  assert (Hlen : w < length (workers st)) by (eapply lookup_lt_Some, Hw).
  destruct (progress wk) as [| |count| |] eqn:Hp.
  - (* acquire *)
    destruct (lock st) as [holder|] eqn:Hl; [discriminate|].
    injection Hstep as <-. destruct Hinv as (Hout & Hlock & Hperm).
    rewrite Hl in Hlock. split; [split; [|split]|]; simpl.
    + intros w' wk' Hw' Hne.
      destruct (lookup_after_insert _ _ _ _ _ _ Hw Hw') as [[-> _]|[Hw'w Hold]];
        [congruence|].
      apply (Hout w' wk' Hold). rewrite Hl. discriminate.
    + eexists. split; [apply list_lookup_insert_eq, Hlen|].
      split; simpl; [discriminate|exact Hlock].
    + rewrite (remaining_insert_same _ _ wk); [exact Hperm|exact Hw|].
      unfold remaining. simpl. rewrite ?Hp, ?Ht. reflexivity.
    + unfold steps_left. simpl. apply (cost_insert _ _ wk); [exact Hw|].
      unfold cost. simpl. rewrite ?Ht, ?Hp. simpl. lia.
  - (* read the count *)
    injection Hstep as <-.
    destruct (inside_holds jobs st w wk Hinv Hw) as (Hl & _ & Hh);
      [rewrite Hp; discriminate|]. rewrite Hp in Hh.
    destruct Hinv as (Hout & _ & Hperm). split; [split; [|split]|]; simpl.
    + intros w' wk' Hw' Hne.
      destruct (lookup_after_insert _ _ _ _ _ _ Hw Hw') as [[-> _]|[Hw'w Hold]];
        [congruence|].
      exact (Hout w' wk' Hold Hne).
    + rewrite Hl. eexists. split; [apply list_lookup_insert_eq, Hlen|].
      split; simpl; [discriminate|auto].
    + rewrite (remaining_insert_same _ _ wk); [exact Hperm|exact Hw|].
      unfold remaining. simpl. rewrite ?Hp, ?Ht. reflexivity.
    + unfold steps_left. simpl. apply (cost_insert _ _ wk); [exact Hw|].
      unfold cost. simpl. rewrite ?Ht, ?Hp. simpl. lia.
  - (* write the count back *)
    injection Hstep as <-.
    destruct (inside_holds jobs st w wk Hinv Hw) as (Hl & _ & Hh);
      [rewrite Hp; discriminate|]. rewrite Hp in Hh. destruct Hh as [-> Hh].
    destruct Hinv as (Hout & _ & Hperm). split; [split; [|split]|]; simpl.
    + intros w' wk' Hw' Hne.
      destruct (lookup_after_insert _ _ _ _ _ _ Hw Hw') as [[-> _]|[Hw'w Hold]];
        [congruence|].
      exact (Hout w' wk' Hold Hne).
    + rewrite Hl. eexists. split; [apply list_lookup_insert_eq, Hlen|].
      split; simpl; [discriminate|congruence].
    + rewrite (remaining_insert_same _ _ wk); [exact Hperm|exact Hw|].
      unfold remaining. simpl. rewrite ?Hp, ?Ht. reflexivity.
    + unfold steps_left. simpl. apply (cost_insert _ _ wk); [exact Hw|].
      unfold cost. simpl. rewrite ?Ht, ?Hp. simpl. lia.
  - (* append the record *)
    injection Hstep as <-.
    destruct (inside_holds jobs st w wk Hinv Hw) as (Hl & _ & Hh);
      [rewrite Hp; discriminate|]. rewrite Hp in Hh.
    destruct Hinv as (Hout & _ & Hperm). split; [split; [|split]|]; simpl.
    + intros w' wk' Hw' Hne.
      destruct (lookup_after_insert _ _ _ _ _ _ Hw Hw') as [[-> _]|[Hw'w Hold]];
        [congruence|].
      exact (Hout w' wk' Hold Hne).
    + rewrite Hl. eexists. split; [apply list_lookup_insert_eq, Hlen|].
      split; simpl; [discriminate|].
      rewrite length_app. simpl. lia.
    + rewrite <- Hperm, <- app_assoc. apply Permutation_app_head. simpl.
      symmetry. apply (remaining_insert_head _ _ wk); [exact Hw|].
      unfold remaining. simpl. rewrite ?Hp, ?Ht. reflexivity.
    + unfold steps_left. simpl. apply (cost_insert _ _ wk); [exact Hw|].
      unfold cost. simpl. rewrite ?Ht, ?Hp. simpl. lia.
  - (* release *)
    injection Hstep as <-.
    destruct (inside_holds jobs st w wk Hinv Hw) as (Hl & _ & Hh);
      [rewrite Hp; discriminate|]. rewrite Hp in Hh.
    destruct Hinv as (Hout & _ & Hperm). split; [split; [|split]|]; simpl.
    + intros w' wk' Hw' _.
      destruct (lookup_after_insert _ _ _ _ _ _ Hw Hw') as [[-> ->]|[Hw'w Hold]];
        [reflexivity|].
      apply (Hout w' wk' Hold). rewrite Hl. congruence.
    + exact Hh.
    + rewrite (remaining_insert_same _ _ wk); [exact Hperm|exact Hw|].
      unfold remaining. simpl. rewrite ?Hp, ?Ht. reflexivity.
    + unfold steps_left. simpl. apply (cost_insert _ _ wk); [exact Hw|].
      unfold cost. simpl. rewrite ?Ht, ?Hp. simpl. destruct rest; simpl; lia.
Qed.

Lemma run_consistent jobs schedule : forall st,
  consistent jobs st -> consistent jobs (run schedule st).
Proof.
  induction schedule as [|w schedule IH]; intros st H; simpl; [exact H|].
  apply IH. destruct (step w st) as [st'|] eqn:E; simpl; [|exact H].
  apply (step_consistent jobs w st st' E H).
Qed.

(** With every worker done, nothing is left to append. *)
Lemma finished_nothing_remains (ws : list (Worker Trade)) :
  (forall w wk, ws !! w = Some wk -> todo wk = []) ->
  concat (map remaining ws) = [].
Proof.
  induction ws as [|a ws IH]; intros H; simpl; [reflexivity|].
  rewrite IH by (intros w wk Hw; exact (H (S w) wk Hw)).
  pose proof (H 0 a eq_refl) as Ha. unfold remaining.
  rewrite Ha. destruct (progress a); reflexivity.
Qed.

Lemma finished_complete jobs st :
  consistent jobs st ->
  finished st ->
  lock st = None /\
  trades st ≡ₚ concat jobs /\
  totalTrades st = length (concat jobs).
Proof.
  intros (Hout & Hlock & Hperm) Hfin.
  rewrite (finished_nothing_remains _ Hfin), app_nil_r in Hperm.
  destruct (lock st) as [w|].
  - destruct Hlock as (wk & Hw & Hne & _). exfalso. exact (Hne (Hfin w wk Hw)).
  - split; [reflexivity|]. split; [exact Hperm|].
    rewrite Hlock. apply Permutation_length, Hperm.
Qed.

(** A worker with a trade to record can step, or the holder of the lock
    can: the store never deadlocks. *)
Lemma unfinished_steps jobs st w wk :
  consistent jobs st ->
  workers st !! w = Some wk ->
  todo wk <> [] ->
  exists w' st', step w' st = Some st'.
Proof.
  intros Hinv Hw Hne. destruct (lock st) as [holder|] eqn:Hl.
  - destruct Hinv as (_ & Hlock & _). rewrite Hl in Hlock.
    destruct Hlock as (hk & Hh & Hhne & Hstage).
    exists holder. unfold step. rewrite Hh.
    destruct (todo hk) as [|t rest]; [congruence|].
    destruct (progress hk); [destruct Hstage|eauto..].
  - destruct Hinv as (Hout & _ & _).
    assert (Hp : progress wk = Outside) by (apply (Hout w wk Hw); rewrite Hl; discriminate).
    exists w. unfold step. rewrite Hw, Hp, Hl.
    destruct (todo wk) as [|t rest]; [congruence|]. eauto.
Qed.

Lemma completes jobs : forall n st,
  steps_left st <= n ->
  consistent jobs st ->
  exists more, finished (run more st).
Proof.
  induction n as [|n IH]; intros st Hn Hinv.
  - exists []. simpl. intros w wk Hw.
    destruct (todo wk) as [|t rest] eqn:Ht; [reflexivity|]. exfalso.
    destruct (unfinished_steps jobs st w wk Hinv Hw) as (w' & st' & Hstep);
      [congruence|].
    destruct (step_consistent jobs w' st st' Hstep Hinv) as [_ Hdec]. lia.
  - destruct (decide (Forall (fun wk => todo wk = []) (workers st))) as [Hall|Hsome].
    + exists []. simpl. intros w wk Hw.
      exact (proj1 (Forall_lookup _ _) Hall w wk Hw).
    + apply not_Forall_Exists in Hsome; [|intros wk; apply _].
      apply Exists_exists in Hsome as (wk & Hin & Hne).
      apply list_elem_of_lookup in Hin as [w Hw].
      destruct (unfinished_steps jobs st w wk Hinv Hw Hne) as (w' & st' & Hstep).
      destruct (step_consistent jobs w' st st' Hstep Hinv) as [Hinv' Hdec].
      destruct (IH st') as [more Hmore]; [lia|exact Hinv'|].
      exists (w' :: more). simpl. rewrite Hstep. exact Hmore.
Qed.

(** C2. Whatever the number of workers, the trades each of them submits and
    the interleaving of their steps: a snapshot, which is taken under the
    lock, shows a trade count that is the length of the history it shows;
    once every worker is done the history holds the submitted trades, each
    once, and the trade count is their number [T]; until then some worker
    can step, and the run can be continued until every worker is done. *)
Theorem no_lost_updates (jobs : list (list Trade)) (schedule : list nat) :
  let st := run schedule (start jobs) in
  (forall count history,
      readSnapshot st = Some (count, history) ->
      count = length history /\ count = totalTrades st /\ history = trades st) /\
  (finished st ->
     trades st ≡ₚ concat jobs /\
     length (trades st) = length (concat jobs) /\
     totalTrades st = length (concat jobs)) /\
  (forall w wk, workers st !! w = Some wk -> todo wk <> [] ->
                exists w' st', step w' st = Some st') /\
  (exists more, finished (run (schedule ++ more) (start jobs))).
Proof.
  intros st.
  assert (Hinv : consistent jobs st) by apply run_consistent, start_consistent.
  split; [|split; [|split]].
  - intros count history Hsnap. unfold readSnapshot in Hsnap.
    destruct Hinv as (_ & Hlock & _).
    destruct (lock st); [discriminate|]. injection Hsnap as <- <-. auto.
  - intros Hfin. destruct (finished_complete jobs st Hinv Hfin) as (_ & Hperm & Hcount).
    split; [exact Hperm|]. split; [apply Permutation_length, Hperm|exact Hcount].
  - intros w wk. exact (unfinished_steps jobs st w wk Hinv).
  - destruct (completes jobs (steps_left st) st (le_n _) Hinv) as [more Hmore].
    exists more. unfold run in *. rewrite fold_left_app. exact Hmore.
Qed.

End Interleaving.

(** Two workers, three trades: the second worker asks for the lock while
    the first holds it and waits; the count and the history move together,
    and at the end the three trades are in the history. *)
Example two_workers_three_trades :
  let st0 := SharedStateStore.start [["t1"; "t2"]; ["t3"]] in
  SharedStateStore.step 1 (SharedStateStore.run [0; 0]%nat st0) = None /\
  SharedStateStore.readSnapshot (SharedStateStore.run [0; 1; 0; 0]%nat st0) = None /\
  SharedStateStore.readSnapshot
    (SharedStateStore.run [0; 1; 0; 0; 1; 0; 0; 1; 1; 1; 1; 1]%nat st0)
  = Some (2%nat, ["t1"; "t3"]) /\
  SharedStateStore.readSnapshot
    (SharedStateStore.run
       [0; 1; 0; 0; 1; 0; 0; 1; 1; 1; 1; 1; 0; 0; 0; 0; 0]%nat st0)
  = Some (3%nat, ["t1"; "t3"; "t2"]).
Proof. repeat split. Qed.

(** * Further properties of the front end *)

(** ** Rounding to binary64 *)

Section Rounding.
Import Js.
#[local] Open Scope Q_scope.

(** A whole number is its own nearest integer. *)
Lemma rne_Z (z : Z) : rne (inject_Z z) = z.
Proof.
  unfold rne. rewrite Qfloor_Z.
  assert (H : inject_Z z - inject_Z z < 1 # 2) by lra.
  rewrite (proj1 (Qlt_alt _ _) H). reflexivity.
Qed.

Lemma rne_mono (x y : Q) : x <= y -> (rne x <= rne y)%Z.
Proof.
  intros H. pose proof (Qfloor_resp_le _ _ H) as Hf. unfold rne.
  destruct (Z.eq_dec (Qfloor x) (Qfloor y)) as [E|E].
  - rewrite <- E. set (f := Qfloor x).
    destruct (Qcompare_spec (x - inject_Z f) (1 # 2)) as [Cx|Cx|Cx];
      destruct (Qcompare_spec (y - inject_Z f) (1 # 2)) as [Cy|Cy|Cy];
      try (destruct (Z.even f)); try lia; exfalso; lra.
  - destruct (x - inject_Z (Qfloor x) ?= 1 # 2);
      destruct (y - inject_Z (Qfloor y) ?= 1 # 2);
      try (destruct (Z.even (Qfloor x))); try (destruct (Z.even (Qfloor y))); lia.
Qed.

Lemma two_pos (n : Z) : 0 < 2 ^ n.
Proof. apply Qpower_0_lt. reflexivity. Qed.

Lemma two_plus (n m : Z) : 2 ^ (n + m) == 2 ^ n * 2 ^ m.
Proof. apply Qpower_plus. discriminate. Qed.

Lemma two_succ (n : Z) : 2 ^ (n + 1) == 2 * 2 ^ n.
Proof. rewrite two_plus. change (2 ^ 1) with 2. ring. Qed.

Lemma two_le (n m : Z) : (n <= m)%Z -> 2 ^ n <= 2 ^ m.
Proof. intros H. apply Qpower_le_compat_l; [exact H|]. discriminate. Qed.

Lemma two_lt_inv (n m : Z) : 2 ^ n < 2 ^ m -> (n < m)%Z.
Proof.
  intros H. apply Z.nle_gt. intros Hle. apply two_le in Hle.
  apply Qle_not_lt in Hle. exact (Hle H).
Qed.

Lemma two_of_Z (n : Z) : (0 <= n)%Z -> inject_Z (2 ^ n) == 2 ^ n.
Proof. intros H. rewrite Zpower_Qpower by exact H. reflexivity. Qed.

(** [ilog2 x] is the exponent of the power of two at or below [x]. *)
Lemma ilog2_spec (x : Q) : 0 < x -> 2 ^ ilog2 x <= x /\ x < 2 ^ (ilog2 x + 1).
Proof.
  intros Hx. destruct x as [p q].
  assert (Hp : (0 < p)%Z) by (unfold Qlt in Hx; simpl in Hx; lia).
  unfold ilog2. cbn [Qnum Qden].
  set (lp := Z.log2 p). set (lq := Z.log2 (Z.pos q)).
  pose proof (Z.log2_spec p Hp) as [Hp1 Hp2]. fold lp in Hp1, Hp2.
  pose proof (Z.log2_spec (Z.pos q) (Pos2Z.is_pos q)) as [Hq1 Hq2]. fold lq in Hq1, Hq2.
  assert (Hlp : (0 <= lp)%Z) by apply Z.log2_nonneg.
  assert (Hlq : (0 <= lq)%Z) by apply Z.log2_nonneg.
  set (x := p # q) in *.
  set (P := inject_Z p). set (D := inject_Z (Z.pos q)).
  assert (HxD : x * D == P).
  { unfold x, P, D. rewrite (Qmake_Qdiv p q). field. discriminate. }
  assert (HD : 0 < D) by (unfold D; change 0 with (inject_Z 0); rewrite <- Zlt_Qlt; lia).
  assert (HA1 : 2 ^ lp <= P).
  { rewrite <- two_of_Z by exact Hlp. unfold P. rewrite <- Zle_Qle. exact Hp1. }
  assert (HA2 : P < 2 * 2 ^ lp).
  { rewrite <- two_succ, <- two_of_Z by lia. unfold P. rewrite <- Zlt_Qlt. exact Hp2. }
  assert (HB1 : 2 ^ lq <= D).
  { rewrite <- two_of_Z by exact Hlq. unfold D. rewrite <- Zle_Qle. exact Hq1. }
  assert (HB2 : D < 2 * 2 ^ lq).
  { rewrite <- two_succ, <- two_of_Z by lia. unfold D. rewrite <- Zlt_Qlt. exact Hq2. }
  assert (Hd : 2 ^ (lp - lq) * 2 ^ lq == 2 ^ lp).
  { rewrite <- two_plus. replace (lp - lq + lq)%Z with lp by lia. reflexivity. }
  pose proof (two_pos (lp - lq)) as Hd0. pose proof (two_pos lq) as Hq0.
  set (d := (lp - lq)%Z) in *.
  set (T := 2 ^ d) in *. set (A := 2 ^ lp) in *. set (B := 2 ^ lq) in *.
  assert (Hhi : x < 2 * T) by nra.
  assert (Hlo : T < 2 * x) by nra.
  destruct (Qle_bool T x) eqn:E.
  - apply Qle_bool_iff in E. split; [exact E|]. rewrite two_succ. exact Hhi.
  - assert (Hlt : x < T).
    { apply Qnot_le_lt. intros H. apply Qle_bool_iff in H. congruence. }
    replace (d - 1 + 1)%Z with d by lia. split; [|exact Hlt].
    assert (Hs : 2 * 2 ^ (d - 1) == T).
    { rewrite <- two_succ. replace (d - 1 + 1)%Z with d by lia. reflexivity. }
    lra.
Qed.

Lemma ilog2_mono (x y : Q) : 0 < x -> x <= y -> (ilog2 x <= ilog2 y)%Z.
Proof.
  intros Hx Hxy.
  destruct (ilog2_spec x Hx) as [H1 _].
  destruct (ilog2_spec y) as [_ H2]; [lra|].
  assert (H : 2 ^ ilog2 x < 2 ^ (ilog2 y + 1)) by lra.
  apply two_lt_inv in H. lia.
Qed.

Lemma Qabs_pos_eq (x : Q) : 0 < x -> Qabs x = x.
Proof.
  destruct x as [p q]. unfold Qlt. simpl. intros H.
  rewrite Z.abs_eq by lia. reflexivity.
Qed.

Lemma ulp_pos (x : Q) : 0 < ulp x.
Proof. apply two_pos. Qed.

Lemma nearest_pos (x : Q) :
  0 < x -> nearest x = inject_Z (rne (x / ulp x)) * ulp x.
Proof.
  intros H. unfold nearest.
  destruct (Qeq_bool x 0) eqn:E; [|reflexivity].
  apply Qeq_bool_iff in E. lra.
Qed.

Lemma div_le_compat (x y u : Q) : 0 < u -> x <= y -> x / u <= y / u.
Proof.
  intros Hu H. unfold Qdiv. apply Qmult_le_compat_r; [exact H|].
  apply Qlt_le_weak, Qinv_lt_0_compat, Hu.
Qed.

(** Rounding keeps the order of positive numbers: within one binade the
    nearest integers are in order, and from one binade to a higher one the
    power of two between them is. *)
Lemma nearest_mono_pos (x y : Q) : 0 < x -> x <= y -> nearest x <= nearest y.
Proof.
  intros Hx Hxy. assert (Hy : 0 < y) by lra.
  rewrite (nearest_pos x Hx), (nearest_pos y Hy). unfold ulp.
  rewrite (Qabs_pos_eq x Hx), (Qabs_pos_eq y Hy).
  pose proof (ilog2_mono x y Hx Hxy) as Hl.
  destruct (ilog2_spec x Hx) as [_ Hx2]. destruct (ilog2_spec y Hy) as [Hy1 _].
  set (lx := ilog2 x) in *. set (ly := ilog2 y) in *.
  set (ex := (Z.max lx (-1022) - 52)%Z). set (ey := (Z.max ly (-1022) - 52)%Z).
  pose proof (two_pos ex) as Hux. pose proof (two_pos ey) as Huy.
  destruct (Z.eq_dec ex ey) as [E|E].
  - rewrite <- E. apply Qmult_le_compat_r; [|lra].
    rewrite <- Zle_Qle. apply rne_mono, div_le_compat; assumption.
  - assert (Hey : ey = (ly - 52)%Z) by lia.
    assert (Hex : (ex + 1 <= ey)%Z) by lia.
    assert (Hnx : (rne (x / 2 ^ ex) <= 2 ^ 53)%Z).
    { rewrite <- (rne_Z (2 ^ 53)). apply rne_mono.
      apply Qle_shift_div_r; [exact Hux|].
      change (inject_Z (2 ^ 53)) with (2 ^ 53). rewrite <- two_plus.
      apply Qlt_le_weak. eapply Qlt_le_trans; [exact Hx2|]. apply two_le. lia. }
    assert (Hny : (2 ^ 52 <= rne (y / 2 ^ ey))%Z).
    { rewrite <- (rne_Z (2 ^ 52)) at 1. apply rne_mono.
      apply Qle_shift_div_l; [exact Huy|].
      change (inject_Z (2 ^ 52)) with (2 ^ 52). rewrite <- two_plus.
      eapply Qle_trans; [|exact Hy1]. apply two_le. lia. }
    rewrite Zle_Qle in Hnx, Hny.
    change (inject_Z (2 ^ 53)) with (2 ^ 53) in Hnx.
    change (inject_Z (2 ^ 52)) with (2 ^ 52) in Hny.
    apply Qle_trans with (2 ^ ly).
    + apply Qle_trans with (2 ^ 53 * 2 ^ ex).
      * apply Qmult_le_compat_r; [exact Hnx|lra].
      * rewrite <- two_plus. apply two_le. lia.
    + apply Qle_trans with (2 ^ 52 * 2 ^ ey).
      * rewrite <- two_plus. apply two_le. lia.
      * apply Qmult_le_compat_r; [exact Hny|lra].
Qed.

Lemma nearest_nonneg (x : Q) : 0 <= x -> 0 <= nearest x.
Proof.
  intros H. unfold nearest. destruct (Qeq_bool x 0) eqn:E; [lra|].
  apply Qmult_le_0_compat; [|apply Qlt_le_weak, ulp_pos].
  change 0 with (inject_Z 0). rewrite <- Zle_Qle.
  rewrite <- (rne_Z 0). apply rne_mono. change (inject_Z 0) with 0.
  apply Qle_shift_div_l; [apply ulp_pos|]. lra.
Qed.


Lemma nearest_zero (x : Q) : x == 0 -> nearest x = 0.
Proof. intros H. unfold nearest. apply Qeq_bool_iff in H. rewrite H. reflexivity. Qed.

(** [round] takes equal rationals to the same number. *)
Lemma round_comp (x y : Q) : x == y -> round x = round y.
Proof. intros H. unfold round. rewrite (Qred_complete x y H). reflexivity. Qed.

Lemma round_nonneg (x : Q) : 0 <= x -> 0 <= round x.
Proof.
  intros H. unfold round. rewrite Qred_correct. apply nearest_nonneg.
  rewrite Qred_correct. exact H.
Qed.


(** [round] keeps the order of the numbers from zero. *)
Lemma round_mono (x y : Q) : 0 <= x -> x <= y -> round x <= round y.
Proof.
  intros Hx Hxy. unfold round. apply Qred_le.
  destruct (Qeq_dec x 0) as [E|E].
  - rewrite (nearest_zero (Qred x)) by (rewrite Qred_correct; exact E).
    apply nearest_nonneg. rewrite Qred_correct. lra.
  - apply nearest_mono_pos; rewrite ?Qred_correct; [|exact Hxy].
    destruct (Qlt_le_dec 0 x) as [H|H]; [exact H|]. exfalso. apply E. lra.
Qed.

(** A numeral with a point is not ['0']. *)
Lemma point_not_zero (a b : string) : (a ++ "." ++ b)%string <> "0".
Proof.
  destruct a as [|c a]; cbv [String.append]; fold String.append.
  - discriminate.
  - intros H. injection H as _ H. destruct a; discriminate H.
Qed.

Lemma toFixed_not_zero (x : number) : toFixed x 1 <> "0".
Proof.
  unfold toFixed, fixed. cbn [Nat.eqb].
  destruct (Qle_bool 0 x).
  - cbv [String.append]; fold String.append. apply point_not_zero.
  - cbv [String.append]; fold String.append. discriminate.
Qed.

(** With one digit, a number from 0 to 100 prints as a number of tenths
    from 0 to 1000. *)
Lemma toFixed_range (x : number) :
  0 <= x <= 100 -> exists n, (0 <= n <= 1000)%Z /\ toFixed x 1 = fixed n 1.
Proof.
  intros [H0 H1]. unfold toFixed.
  change (10 ^ Z.of_nat 1)%Z with 10%Z.
  assert (Hs : Qle_bool 0 x = true) by (apply Qle_bool_iff, H0).
  rewrite Hs. cbv [String.append]; fold String.append.
  exists (Qfloor (Qabs x * inject_Z 10 + (1 # 2))). split; [|reflexivity].
  rewrite (Qabs_pos x H0). split.
  - change 0%Z with (Qfloor 0). apply Qfloor_resp_le.
    change (inject_Z 10) with 10. lra.
  - change 1000%Z with (Qfloor (100 * 10 + (1 # 2))). apply Qfloor_resp_le.
    change (inject_Z 10) with 10. lra.
Qed.

End Rounding.

(** ** The statistics of the trade history *)

Section TradeStatistics.
Import MockData TradeHistoryDashboard.
#[local] Open Scope list_scope.

Lemma filter_length_le {A} (p : A -> bool) (l : list A) :
  (length (List.filter p l) <= length l)%nat.
Proof.
  induction l as [|x l IH]; simpl; [lia|]. destruct (p x); simpl; lia.
Qed.

Lemma of_nat_le (n m : nat) : (n <= m)%nat -> (Js.of_nat n <= Js.of_nat m)%Q.
Proof.
  intros H. unfold Js.of_nat. rewrite <- Zle_Qle. lia.
Qed.

Lemma of_nat_pos (n : nat) : (0 < n)%nat -> (0 < Js.of_nat n)%Q.
Proof.
  intros H. unfold Js.of_nat. change 0%Q with (inject_Z 0). rewrite <- Zlt_Qlt. lia.
Qed.

(** The number [winRate] prints: the share of [w] among [e], as a
    percentage, after the rounding of the division and of the product. *)
Definition percentage (w e : nat) : Js.number :=
  Js.mul (Js.div (Js.of_nat w) (Js.of_nat e)) 100%Q.

Lemma percentage_range (w e : nat) :
  (w <= e)%nat -> (0 < e)%nat -> (0 <= percentage w e <= 100)%Q.
Proof.
  intros Hle Hpos. unfold percentage, Js.mul, Js.div.
  pose proof (of_nat_pos e Hpos) as He.
  pose proof (of_nat_le w e Hle) as Hw.
  pose proof (of_nat_le 0 w (Nat.le_0_l w)) as Hw0.
  change (Js.of_nat 0) with 0%Q in Hw0.
  set (q := (Js.of_nat w / Js.of_nat e)%Q).
  assert (Hq0 : (0 <= q)%Q) by (apply Qle_shift_div_l; lra).
  assert (Hq1 : (q <= 1)%Q) by (apply Qle_shift_div_r; lra).
  pose proof (round_nonneg q Hq0) as Hr0.
  pose proof (round_mono q 1 Hq0 Hq1) as Hr1.
  change (Js.round 1) with 1%Q in Hr1.
  split.
  - apply round_nonneg. lra.
  - change 100%Q with (Js.round 100) at 2. apply round_mono; lra.
Qed.

Lemma percentage_none (e : nat) : (0 < e)%nat -> percentage 0 e = 0%Q.
Proof.
  intros Hpos. unfold percentage, Js.mul, Js.div.
  rewrite (round_comp (Js.of_nat 0 / Js.of_nat e) 0).
  - reflexivity.
  - unfold Qdiv. change (Js.of_nat 0) with 0%Q. ring.
Qed.

Lemma percentage_all (e : nat) : (0 < e)%nat -> percentage e e = 100%Q.
Proof.
  intros Hpos. unfold percentage, Js.mul, Js.div.
  rewrite (round_comp (Js.of_nat e / Js.of_nat e) 1).
  - reflexivity.
  - pose proof (of_nat_pos e Hpos). field. lra.
Qed.

(** An executed trade with a profit or loss of [p]. *)
Definition executed (p : Js.number) : TradeRecord :=
  {| id := "trade-0"; timestamp := 0; coin := "BTC"; strategy := "SMA_Crossover";
     orderType := BUY; quantity := 1%Q; executionPrice := 45000%Q;
     currentPrice := 45000%Q; pnl := p; status := "Executed" |}.

(** X1. [winRate] is ['0'] exactly when no trade was executed.  With
    executed trades it is the numeral, with one digit after the point, of a
    number from 0.0 to 100.0: the rounding of the division, of the product
    and of [toFixed] never takes it out of that range.  It is ['0.0'] when
    no executed trade is a winner and ['100.0'] when each of them is one.
    Neither holds the other way round: one winner among 2001 executed
    trades is printed as ['0.0'], and 2000 winners as ['100.0']. *)
Theorem winRate_is_a_percentage :
  (forall filtered : list TradeRecord,
      (winRate filtered = "0" <-> executedTrades filtered = []) /\
      (executedTrades filtered <> [] ->
       (exists n, (0 <= n <= 1000)%Z /\ winRate filtered = Js.fixed n 1) /\
       (winningTrades filtered = [] -> winRate filtered = "0.0") /\
       (winningTrades filtered = executedTrades filtered ->
        winRate filtered = "100.0"))) /\
  (exists filtered : list TradeRecord,
      length (executedTrades filtered) = 2001%nat /\
      length (winningTrades filtered) = 1%nat /\
      winRate filtered = "0.0") /\
  (exists filtered : list TradeRecord,
      length (executedTrades filtered) = 2001%nat /\
      length (winningTrades filtered) = 2000%nat /\
      winRate filtered = "100.0").
Proof.
  split; [|split].
  - intros filtered. unfold winRate.
    pose proof (filter_length_le (fun t => Js.gt (pnl t) 0%Q) (executedTrades filtered))
      as Hle.
    fold (winningTrades filtered) in Hle.
    destruct (0 <? length (executedTrades filtered))%nat eqn:Hpos.
    + apply Nat.ltb_lt in Hpos.
      assert (Hne : executedTrades filtered <> []).
      { intros E. rewrite E in Hpos. simpl in Hpos. lia. }
      fold (percentage (length (winningTrades filtered))
              (length (executedTrades filtered))).
      split.
      * split; [intros H; exfalso; exact (toFixed_not_zero _ H)|contradiction].
      * intros _. split; [|split].
        -- apply toFixed_range, percentage_range; assumption.
        -- intros E. rewrite E. simpl length.
           rewrite (percentage_none _ Hpos). reflexivity.
        -- intros E. rewrite E.
           rewrite (percentage_all _ Hpos). reflexivity.
    + apply Nat.ltb_ge in Hpos.
      assert (He : executedTrades filtered = []) by (apply length_zero_iff_nil; lia).
      split; [split; auto|]. contradiction.
  - exists (executed 1%Q :: repeat (executed (-1)%Q) 2000).
    vm_compute. repeat split; reflexivity.
  - exists (executed (-1)%Q :: repeat (executed 1%Q) 2000).
    vm_compute. repeat split; reflexivity.
Qed.











Lemma filter_all_in {A} (p : A -> bool) (l : list A) :
  (forall x, In x l -> p x = true) -> List.filter p l = l.
Proof.
  induction l as [|x l IH]; intros H; simpl; [reflexivity|].
  rewrite (H x) by (left; reflexivity). f_equal. apply IH. intros y Hy.
  apply H. right. exact Hy.
Qed.

Lemma filter_none_in {A} (p : A -> bool) (l : list A) :
  (forall x, In x l -> p x = false) -> List.filter p l = [].
Proof.
  induction l as [|x l IH]; intros H; simpl; [reflexivity|].
  rewrite (H x) by (left; reflexivity). apply IH. intros y Hy.
  apply H. right. exact Hy.
Qed.

Lemma filteredTrades_keeps :
  forall filters trades t,
    In t (filteredTrades filters trades) ->
    In t trades /\
    (f_coin filters = "All" \/ coin t = f_coin filters) /\
    (f_strategy filters = "All" \/ strategy t = f_strategy filters) /\
    (f_status filters = "All" \/ status t = f_status filters).
Proof.
  intros filters trades t. unfold filteredTrades.
  rewrite filter_In, keeps_spec. tauto.
Qed.

Lemma filteredTrades_status filters trades t :
  In t (filteredTrades filters trades) ->
  f_status filters = "All" \/ status t = f_status filters.
Proof.
  intros H. apply filteredTrades_keeps in H. tauto.
Qed.

(** X3. With the status filter at ['Executed'] every trade that is listed
    is an executed one, so the count of listed trades is the count the
    statistics are taken over.  With the status filter at any other value
    than ['All'] and ['Executed'] no listed trade is executed, and the win
    rate, both averages and both extremes are shown as 0 whatever the
    trades are. *)
Theorem status_filter_and_statistics (filters : Filters) (trades : list TradeRecord) :
  (f_status filters = "Executed" ->
   executedTrades (filteredTrades filters trades) = filteredTrades filters trades /\
   totalTrades (filteredTrades filters trades)
   = length (executedTrades (filteredTrades filters trades))) /\
  (f_status filters <> "All" -> f_status filters <> "Executed" ->
   executedTrades (filteredTrades filters trades) = [] /\
   winRate (filteredTrades filters trades) = "0" /\
   avgWin (filteredTrades filters trades) = 0%Q /\
   avgLoss (filteredTrades filters trades) = 0%Q /\
   largestWin (filteredTrades filters trades) = 0%Q /\
   largestLoss (filteredTrades filters trades) = 0%Q).
Proof.
  split.
  - intros Hs.
    assert (E : executedTrades (filteredTrades filters trades)
                = filteredTrades filters trades).
    { unfold executedTrades. apply filter_all_in. intros t Ht.
      destruct (filteredTrades_status _ _ _ Ht) as [H|H].
      - rewrite Hs in H. discriminate.
      - rewrite H, Hs. reflexivity. }
    split; [exact E|]. rewrite E. reflexivity.
  - intros Hall Hex.
    assert (E : executedTrades (filteredTrades filters trades) = []).
    { unfold executedTrades. apply filter_none_in. intros t Ht.
      destruct (filteredTrades_status _ _ _ Ht) as [H|H]; [contradiction|].
      rewrite H. apply String.eqb_neq. exact Hex. }
    unfold winRate, avgWin, avgLoss, largestWin, largestLoss,
      winningTrades, losingTrades.
    rewrite E. repeat split; reflexivity.
Qed.

End TradeStatistics.

(** ** The trades the history shows *)

Section TradeFeed.
Import MockData TradeHistoryDashboard.
#[local] Open Scope list_scope.

(** The trade a message carries, when it is a message of type ['trade']. *)
Definition payload (e : HistoryEvent) : list TradeRecord :=
  match e with
  | WsMessageArrives (Message (Some type) t) =>
      if String.eqb type "trade" then [t] else []
  | _ => []
  end.

(** The trades of the messages of type ['trade'] among the events, oldest
    first. *)
Definition payloads (events : list HistoryEvent) : list TradeRecord :=
  concat (map payload events).

(** The event is an initial document with a list of trades. *)
Definition is_load (e : HistoryEvent) : bool :=
  match e with InitialTradesArrive (Trades _) => true | _ => false end.

Definition is_unmount (e : HistoryEvent) : bool :=
  match e with Unmounts => true | _ => false end.

(** The cases of one step from a mounted state. *)
Ltac step_cases e Hm :=
  destruct e as [[| |?]|[|[?|] ?]|]; simpl in *; unfold onWsMessage; simpl;
  rewrite ?Hm; try discriminate; auto;
  match goal with |- context [String.eqb ?type "trade"] =>
    destruct (String.eqb type "trade"); auto
  end.

Lemma run_mounted_quiet events : forall h,
  mounted h = true ->
  forallb (fun e => negb (is_load e) && negb (is_unmount e)) events = true ->
  mounted (run events h) = true /\
  trades (run events h) = rev (payloads events) ++ trades h.
Proof.
  unfold run, payloads.
  induction events as [|e events IH]; intros h Hm Hq; simpl.
  - auto.
  - simpl in Hq. apply andb_true_iff in Hq as [He Hq].
    destruct (IH (step h e)) as [Hm' Ht]; [|exact Hq|].
    + step_cases e Hm.
    + split; [exact Hm'|]. rewrite Ht, rev_app_distr, <- app_assoc. f_equal.
      step_cases e Hm.
Qed.

Lemma run_mounted events : forall h,
  mounted h = true ->
  forallb (fun e => negb (is_unmount e)) events = true ->
  mounted (run events h) = true.
Proof.
  unfold run.
  induction events as [|e events IH]; intros h Hm Hq; simpl; [exact Hm|].
  simpl in Hq. apply andb_true_iff in Hq as [He Hq]. apply IH; [|exact Hq].
  step_cases e Hm.
Qed.

Lemma run_unmounted events : forall h,
  mounted h = false -> run events h = h.
Proof.
  unfold run.
  induction events as [|e events IH]; intros h Hm; simpl; [reflexivity|].
  assert (E : step h e = h).
  { destruct e as [[| |l]|msg|]; simpl; unfold onWsMessage; rewrite ?Hm;
      try reflexivity.
    destruct h as [l m]. simpl in Hm. subst m. reflexivity. }
  rewrite E. apply IH, Hm.
Qed.

(** X4. While the component is mounted the history lists the trades newest
    first: the trades of the WebSocket messages of type ['trade'] that
    arrived after the initial list, latest first, and then the initial list
    reversed.  The arrival of the initial list replaces what was shown, so a
    trade that arrived over the WebSocket before it is not listed; messages
    of another type, falsy messages and documents without a list of trades
    change nothing; and after the component unmounts nothing changes. *)
Theorem history_lists_newest_first
    (before after : list HistoryEvent) (initial : list TradeRecord) :
  forallb (fun e => negb (is_unmount e)) before = true ->
  forallb (fun e => negb (is_load e) && negb (is_unmount e)) after = true ->
  trades (run (before ++ InitialTradesArrive (Trades initial) :: after) mount)
  = rev (payloads after) ++ rev initial /\
  trades (run after mount) = rev (payloads after) /\
  (forall events h, mounted h = false -> run events h = h).
Proof.
  intros Hb Ha. split; [|split].
  - unfold run. rewrite fold_left_app. simpl.
    pose proof (run_mounted before mount eq_refl Hb) as Hm. unfold run in Hm.
    unfold onInitialTrades. rewrite Hm.
    destruct (run_mounted_quiet after {| trades := rev initial; mounted := true |}
                eq_refl Ha) as [_ Ht].
    exact Ht.
  - destruct (run_mounted_quiet after mount eq_refl Ha) as [_ Ht].
    rewrite Ht. apply app_nil_r.
  - intros events h. apply run_unmounted.
Qed.

(** Two trades, for the example. *)
Definition tradeA : TradeRecord :=
  {| id := "a"; timestamp := 1; coin := "BTC"; strategy := "RSI"; orderType := BUY;
     quantity := 1%Q; executionPrice := 10%Q; currentPrice := 11%Q; pnl := 1%Q;
     status := "Executed" |}.
Definition tradeB : TradeRecord :=
  {| id := "b"; timestamp := 2; coin := "ETH"; strategy := "MACD"; orderType := SELL;
     quantity := 1%Q; executionPrice := 10%Q; currentPrice := 11%Q; pnl := (-1)%Q;
     status := "Executed" |}.

(** The theorem at a feed in which a trade arrives before the initial list
    and one after it. *)
Lemma history_lists_newest_first_witness :
  trades
    (run ([WsMessageArrives (Message (Some "trade") tradeA)]
          ++ InitialTradesArrive (Trades [tradeB; tradeA])
             :: [WsMessageArrives (Message (Some "metrics") tradeA);
                 WsMessageArrives (Message (Some "trade") tradeB)])
       mount)
  = [tradeB; tradeA; tradeB].
Proof.
  apply (history_lists_newest_first
           [WsMessageArrives (Message (Some "trade") tradeA)]
           [WsMessageArrives (Message (Some "metrics") tradeA);
            WsMessageArrives (Message (Some "trade") tradeB)]
           [tradeB; tradeA]); reflexivity.
Defined.

End TradeFeed.

(** ** The algebra of the trade filter *)

Section FilterAlgebra.
Import MockData TradeHistoryDashboard.
#[local] Open Scope list_scope.

Lemma filter_sublist {A} (p : A -> bool) (l : list A) : sublist (List.filter p l) l.
Proof.
  induction l as [|x l IH]; simpl; [constructor|].
  destruct (p x); [apply sublist_skip|apply sublist_cons]; exact IH.
Qed.

Lemma filter_filter {A} (p q : A -> bool) (l : list A) :
  List.filter p (List.filter q l) = List.filter (fun x => q x && p x) l.
Proof.
  induction l as [|x l IH]; simpl; [reflexivity|].
  destruct (q x); simpl; [destruct (p x)|]; rewrite IH; reflexivity.
Qed.

Lemma filter_ext_bool {A} (p q : A -> bool) (l : list A) :
  (forall x, p x = q x) -> List.filter p l = List.filter q l.
Proof.
  intros H. induction l as [|x l IH]; simpl; [reflexivity|].
  rewrite H, IH. reflexivity.
Qed.

Definition onlyCoin (c : string) : Filters :=
  {| f_coin := c; f_strategy := "All"; f_status := "All" |}.
Definition onlyStrategy (s : string) : Filters :=
  {| f_coin := "All"; f_strategy := s; f_status := "All" |}.
Definition onlyStatus (s : string) : Filters :=
  {| f_coin := "All"; f_strategy := "All"; f_status := s |}.

Lemma keeps_split (filters : Filters) (t : TradeRecord) :
  keeps filters t
  = keeps (onlyStatus (f_status filters)) t
    && keeps (onlyStrategy (f_strategy filters)) t
    && keeps (onlyCoin (f_coin filters)) t.
Proof.
  unfold keeps, onlyCoin, onlyStrategy, onlyStatus. simpl.
  destruct (strict_ne (f_coin filters) "All" && _);
    destruct (strict_ne (f_strategy filters) "All" && _);
    destruct (strict_ne (f_status filters) "All" && _); reflexivity.
Qed.

(** X5. The filter only ever removes trades: what it shows is a sublist of
    the trades, in their order.  Filtering what is shown again with the same
    filters changes nothing.  And the three filters work independently:
    filtering by coin, strategy and status at once shows what filtering by
    status, then by strategy, then by coin shows, and two filters can be
    applied in either order. *)
Theorem filter_algebra (filters other : Filters) (trades : list TradeRecord) :
  sublist (filteredTrades filters trades) trades /\
  filteredTrades filters (filteredTrades filters trades) = filteredTrades filters trades /\
  filteredTrades filters trades
  = filteredTrades (onlyCoin (f_coin filters))
      (filteredTrades (onlyStrategy (f_strategy filters))
         (filteredTrades (onlyStatus (f_status filters)) trades)) /\
  filteredTrades filters (filteredTrades other trades)
  = filteredTrades other (filteredTrades filters trades).
Proof.
  unfold filteredTrades. split; [apply filter_sublist|]. split; [|split].
  - rewrite filter_filter. apply filter_ext_bool. intros t.
    destruct (keeps filters t); reflexivity.
  - rewrite !filter_filter. apply filter_ext_bool. intros t.
    rewrite andb_assoc. apply keeps_split.
  - rewrite !filter_filter. apply filter_ext_bool. intros t. apply andb_comm.
Qed.

End FilterAlgebra.

(** ** The WebSocket provider under arbitrary events *)

Section ProviderEvents.
Import WebSocketManager.
#[local] Open Scope list_scope.

(** A delay the provider waits before it reconnects. *)
Definition is_delay (d : Z) : Prop := 2000 <= d <= 30000.

Lemma backoff_is_delay (current : Z) :
  current = 0 \/ is_delay current -> is_delay (backoff current).
Proof.
  unfold is_delay. intros [->|H].
  - rewrite backoff_first. lia.
  - rewrite backoff_doubles by lia. lia.
Qed.

Definition delays_in_range (st : State) : Prop :=
  (reconnectRef st = 0 \/ is_delay (reconnectRef st)) /\
  Forall is_delay (timers st).

Lemma step_delays_in_range st e :
  delays_in_range st -> delays_in_range (step st e).
Proof.
  intros [Href Htimers]. destruct e; simpl.
  - split; [left; reflexivity|exact Htimers].
  - unfold onclose. destruct (mounted st); simpl; [|split; assumption].
    pose proof (backoff_is_delay _ Href) as Hnext. split; [right; exact Hnext|].
    apply Forall_app. split; [exact Htimers|]. constructor; [|constructor].
    unfold or. destruct (backoff (reconnectRef st) =? 0)%Z eqn:E; [|exact Hnext].
    apply Z.eqb_eq in E. unfold is_delay in Hnext. lia.
  - split; assumption.
  - unfold ontimeout. destruct (timers st) as [|d rest] eqn:E.
    + split; [exact Href|]. rewrite ?E. constructor.
    + simpl. split; [exact Href|]. rewrite ?E in Htimers.
      apply Forall_inv_tail in Htimers. exact Htimers.
  - split; assumption.
Qed.

(** X6. Whatever happens to the provider after it mounts (opens, closes,
    errors, timers firing, unmounting, in any order), the delay it keeps is
    0 or between 2000 and 30000 ms, and every reconnection it has scheduled
    waits between 2000 and 30000 ms: it never reconnects at once and never
    waits longer than half a minute. *)
Theorem reconnect_delays_in_range (events : list Event) :
  (reconnectRef (run events mount) = 0 \/
   2000 <= reconnectRef (run events mount) <= 30000) /\
  Forall (fun d => 2000 <= d <= 30000) (timers (run events mount)).
Proof.
  assert (H : forall st, delays_in_range st -> delays_in_range (run events st)).
  { unfold run. induction events as [|e events IH]; intros st Hst; simpl; [exact Hst|].
    apply IH, step_delays_in_range, Hst. }
  apply (H mount). split; [left; reflexivity|constructor].
Qed.

Lemma step_unmounted st e :
  mounted st = false ->
  mounted (step st e) = false /\
  connected (step st e) = connected st /\
  (sockets (step st e) + length (timers (step st e))
   = sockets st + length (timers st))%nat /\
  exists k, timers (step st e) = drop k (timers st).
Proof.
  intros Hm. destruct e; simpl.
  - rewrite Hm. repeat split; try reflexivity. exists 0%nat. reflexivity.
  - unfold onclose. rewrite Hm. simpl. repeat split; try assumption.
    exists 0%nat. reflexivity.
  - repeat split; try assumption. exists 0%nat. reflexivity.
  - unfold ontimeout. destruct (timers st) as [|d rest] eqn:E.
    + rewrite ?E. repeat split; try assumption. exists 0%nat. reflexivity.
    + simpl. repeat split; try assumption; [lia|]. exists 1%nat. reflexivity.
  - repeat split; try reflexivity. exists 0%nat. reflexivity.
Qed.

(** X7. Once the provider has unmounted nothing is scheduled any more: the
    pending timers only run out, each of them opening one last socket when
    it fires, so at most as many sockets are opened after the unmount as
    timers were pending at it; a close after the unmount changes nothing,
    and the provider never shows itself connected again. *)
Theorem unmounted_provider_winds_down (st : State) (events : list Event) :
  mounted st = false ->
  mounted (run events st) = false /\
  connected (run events st) = connected st /\
  (sockets (run events st) + length (timers (run events st))
   = sockets st + length (timers st))%nat /\
  (exists k, timers (run events st) = drop k (timers st)) /\
  onclose (run events st) = run events st.
Proof.
  revert st. unfold run.
  assert (H : forall st, mounted st = false ->
            mounted (fold_left step events st) = false /\
            connected (fold_left step events st) = connected st /\
            (sockets (fold_left step events st)
             + length (timers (fold_left step events st))
             = sockets st + length (timers st))%nat /\
            exists k, timers (fold_left step events st) = drop k (timers st)).
  { induction events as [|e events IH]; intros st Hm; simpl.
    - repeat split; try assumption. exists 0%nat. reflexivity.
    - destruct (step_unmounted st e Hm) as (Hm1 & Hc1 & Hs1 & k1 & Hk1).
      destruct (IH (step st e) Hm1) as (Hm2 & Hc2 & Hs2 & k2 & Hk2).
      split; [exact Hm2|]. split; [congruence|]. split; [lia|].
      exists (k1 + k2)%nat. rewrite Hk2, Hk1, drop_drop. reflexivity. }
  intros st Hm. destruct (H st Hm) as (Hm' & Hc & Hs & Hk).
  repeat split; try assumption. unfold onclose. rewrite Hm'. reflexivity.
Qed.

(** The theorem at a provider that unmounts while a reconnection is
    pending: the timer still fires and opens a second socket, whose close
    schedules nothing. *)
Lemma unmounted_provider_winds_down_witness :
  mounted (run [Close; Unmount] mount) = false /\
  run [Timeout; Close; Open; Timeout] (run [Close; Unmount] mount)
  = {| mounted := false; connected := false; reconnectRef := 0;
       sockets := 2; timers := [] |} /\
  (sockets (run [Timeout; Close; Open; Timeout] (run [Close; Unmount] mount))
   + length (timers (run [Timeout; Close; Open; Timeout] (run [Close; Unmount] mount)))
   = sockets (run [Close; Unmount] mount)
     + length (timers (run [Close; Unmount] mount)))%nat.
Proof.
  split; [reflexivity|]. split; [reflexivity|].
  apply (unmounted_provider_winds_down (run [Close; Unmount] mount)
           [Timeout; Close; Open; Timeout]).
  reflexivity.
Defined.

End ProviderEvents.

(** ** The listeners of the WebSocket provider *)

Section ProviderListeners.
Import WebSocketManager.
#[local] Open Scope list_scope.

Variable JSON_parse : string -> Js.completion Js.value.
Variable call : nat -> Js.value -> Js.completion unit.

(** The warning a listener causes on a message, if it throws. *)
Definition warningOf (parsed : Js.value) (fn : nat) : list (string * Js.error) :=
  match call fn parsed with
  | Js.Normal _ => []
  | Js.Throws e => [("ws listener error", e)]
  end.

Lemma notify_all parsed listeners : forall d,
  calls (fold_left (notify call parsed) listeners d)
  = calls d ++ map (fun fn => (fn, parsed)) listeners /\
  warnings (fold_left (notify call parsed) listeners d)
  = warnings d ++ concat (map (warningOf parsed) listeners) /\
  lastSeen (fold_left (notify call parsed) listeners d) = lastSeen d.
Proof.
  induction listeners as [|fn listeners IH]; intros d; simpl.
  - rewrite !app_nil_r. auto.
  - destruct (IH (notify call parsed d fn)) as (Hc & Hw & Hs).
    rewrite Hc, Hw, Hs. unfold notify, warningOf.
    destruct (call fn parsed); simpl; rewrite <- ?app_assoc; simpl;
      rewrite ?app_nil_r; auto.
Qed.

(** X8. A message that parses is handed to every listener, once each and in
    the order they subscribed, whether or not other listeners throw; each
    listener that throws leaves one warning and nothing else.  A message
    that does not parse reaches no listener and leaves one warning.  In both
    cases the time of the last message is updated.  After the unmount a
    message does nothing at all. *)
Theorem message_reaches_every_listener
    (listeners : Listeners) (now : Z) (data : string) :
  (forall parsed,
      JSON_parse data = Js.Normal parsed ->
      calls (onmessage JSON_parse call true listeners now data)
      = map (fun fn => (fn, parsed)) listeners /\
      warnings (onmessage JSON_parse call true listeners now data)
      = concat (map (warningOf parsed) listeners) /\
      lastSeen (onmessage JSON_parse call true listeners now data) = Some now) /\
  (forall err,
      JSON_parse data = Js.Throws err ->
      onmessage JSON_parse call true listeners now data
      = {| calls := []; warnings := [("ws parse error", err)];
           lastSeen := Some now |}) /\
  onmessage JSON_parse call false listeners now data
  = {| calls := []; warnings := []; lastSeen := None |}.
Proof.
  unfold onmessage. simpl. split; [|split; [|reflexivity]].
  - intros parsed ->.
    destruct (notify_all parsed listeners
                {| calls := []; warnings := []; lastSeen := Some now |})
      as (Hc & Hw & Hs).
    rewrite Hc, Hw, Hs. auto.
  - intros err ->. reflexivity.
Qed.

End ProviderListeners.

Section Subscription.
Import WebSocketManager.
#[local] Open Scope list_scope.

Lemma delete_not_in (fn : nat) (listeners : Listeners) :
  fn ∉ listeners -> delete fn listeners = listeners.
Proof.
  intros H. unfold delete. apply filter_all_in. intros other Hin.
  apply negb_true_iff, Nat.eqb_neq. intros ->. apply H, list_elem_of_In, Hin.
Qed.

Lemma elem_of_delete (fn other : nat) (listeners : Listeners) :
  other ∈ delete fn listeners <-> other ∈ listeners /\ other <> fn.
Proof.
  unfold delete. rewrite !list_elem_of_In, filter_In, negb_true_iff, Nat.eqb_neq.
  reflexivity.
Qed.

Lemma elem_of_add (fn other : nat) (listeners : Listeners) :
  other ∈ add fn listeners <-> other ∈ listeners \/ other = fn.
Proof.
  unfold add. case_bool_decide as Hin.
  - split; [auto|]. intros [H| ->]; assumption.
  - rewrite elem_of_app, list_elem_of_singleton. reflexivity.
Qed.

(** X9. The set of listeners never holds a function twice.  A function
    that subscribes is a listener from then on, and no listener after its
    unsubscription, and neither changes which other functions are
    listeners.  Unsubscribing a function that had subscribed to a set it
    was not in gives the set back as it was; subscribing a function that
    is a listener already changes nothing, so that one unsubscription then
    ends both subscriptions. *)
Theorem subscription_is_a_set (fn : nat) (listeners : Listeners) :
  NoDup listeners ->
  NoDup (add fn listeners) /\ NoDup (delete fn listeners) /\
  (forall other, other ∈ add fn listeners <-> other ∈ listeners \/ other = fn) /\
  (forall other, other ∈ delete fn listeners <-> other ∈ listeners /\ other <> fn) /\
  (fn ∉ listeners -> delete fn (add fn listeners) = listeners) /\
  (fn ∈ listeners ->
   add fn listeners = listeners /\ fn ∉ delete fn (add fn listeners)).
Proof.
  intros Hnd. split; [|split; [|split; [|split; [|split]]]].
  - unfold add. case_bool_decide as Hin; [exact Hnd|].
    apply NoDup_app. split; [exact Hnd|]. split; [|apply NoDup_singleton].
    intros x Hx Hfn. apply list_elem_of_singleton in Hfn as ->. contradiction.
  - unfold delete. apply NoDup_ListNoDup, List.NoDup_filter, NoDup_ListNoDup, Hnd.
  - intros other. apply elem_of_add.
  - intros other. apply elem_of_delete.
  - intros Hout. unfold add. rewrite bool_decide_eq_false_2 by exact Hout.
    unfold delete. rewrite List.filter_app. simpl. rewrite Nat.eqb_refl. simpl.
    rewrite app_nil_r. apply (delete_not_in fn listeners Hout).
  - intros Hin. split.
    + unfold add. rewrite bool_decide_eq_true_2 by exact Hin. reflexivity.
    + rewrite elem_of_delete. intros [_ Hne]. congruence.
Qed.

(** The theorem at two subscriptions of one function beside another one. *)
Lemma subscription_is_a_set_witness :
  NoDup [7; 3]%nat /\
  add 3 [7; 3]%nat = [7; 3]%nat /\
  delete 3 (add 3 [7; 3]%nat) = [7]%nat /\
  NoDup (add 3 [7; 3]%nat).
Proof.
  assert (Hnd : NoDup [7; 3]%nat).
  { apply NoDup_cons. split; [|apply NoDup_singleton].
    rewrite list_elem_of_singleton. discriminate. }
  split; [exact Hnd|]. split; [reflexivity|]. split; [reflexivity|].
  apply (subscription_is_a_set 3%nat [7; 3]%nat Hnd).
Defined.

End Subscription.

(** ** The generated trade history *)

Section MockHistory.
Import MockData.
#[local] Open Scope list_scope.

Lemma history_ids now draws :
  map id (generateTradeHistory now draws)
  = map (fun i => "trade-" ++ NilZero.string_of_uint (Nat.to_uint i))%string (seq 0 50).
Proof. unfold generateTradeHistory. rewrite map_map. reflexivity. Qed.

Lemma history_statuses now draws :
  map status (generateTradeHistory now draws)
  = ["Pending"; "Pending"; "Failed"] ++ repeat "Executed" 47.
Proof. unfold generateTradeHistory. rewrite map_map. reflexivity. Qed.

Lemma history_timestamps now draws :
  map timestamp (generateTradeHistory now draws)
  = map (fun i => now - Z.of_nat i * 3600000) (seq 0 50).
Proof. unfold generateTradeHistory. rewrite map_map. reflexivity. Qed.

(** X10. Whatever the random draws, the generated history has 50 records
    with 50 different ids; the first two are pending, the third failed and
    the other 47 executed; and the records are one hour apart, latest
    first. *)
Theorem generated_history_shape (now : Z) (draws : nat -> Draws) :
  length (generateTradeHistory now draws) = 50%nat /\
  NoDup (map id (generateTradeHistory now draws)) /\
  map status (generateTradeHistory now draws)
  = ["Pending"; "Pending"; "Failed"] ++ repeat "Executed" 47 /\
  (forall i r r',
      generateTradeHistory now draws !! i = Some r ->
      generateTradeHistory now draws !! S i = Some r' ->
      timestamp r' = timestamp r - 3600000).
Proof.
  split; [|split; [|split]].
  - unfold generateTradeHistory. rewrite length_map, length_seq. reflexivity.
  - rewrite history_ids. apply (bool_decide_unpack _). vm_compute. exact I.
  - apply history_statuses.
  - intros i r r' Hr Hr'.
    assert (Ht : forall j x, generateTradeHistory now draws !! j = Some x ->
                             timestamp x = now - Z.of_nat j * 3600000).
    { intros j x Hx. unfold generateTradeHistory in Hx.
      change (map ?f ?l) with (f <$> l) in Hx. rewrite list_lookup_fmap in Hx.
      destruct (seq 0 50 !! j) as [k|] eqn:Ek; [|discriminate].
      apply lookup_seq in Ek as [-> _]. simpl in Hx. injection Hx as <-.
      reflexivity. }
    rewrite (Ht _ _ Hr), (Ht _ _ Hr'). lia.
Qed.

End MockHistory.

(** ** Uploading the data of a backtest *)

Section Upload.
Import MockData BacktestDashboard.
#[local] Open Scope list_scope.






Lemma endsWith_spec (s suffix : string) :
  Js.endsWith s suffix = true <-> exists stem, s = (stem ++ suffix)%string.
Proof.
  induction s as [|c s IH]; cbn [Js.endsWith].
  - destruct (String.eqb_spec "" suffix) as [<-|Hne].
    + split; [exists ""; reflexivity|reflexivity].
    + split; [intros H; discriminate H|].
      intros [[|c stem] H]; cbv [String.append] in H; congruence.
  - destruct (String.eqb_spec (String.String c s) suffix) as [<-|Hne].
    + split; [exists ""; reflexivity|reflexivity].
    + rewrite IH. split.
      * intros [stem ->]. exists (String.String c stem). reflexivity.
      * intros [[|c' stem] H]; cbv [String.append] in H; [congruence|].
        injection H as -> ->. exists stem. reflexivity.
Qed.

(** X13. A drop is judged by its first file alone.  If the type of that
    file is [text/csv] or its name ends in [.csv] it is uploaded like a
    chosen file; otherwise the drop only raises an alert and changes
    nothing; and a drop without files does nothing. *)
Theorem drop_takes_csv_only
    (upload : UploadServer) (file : File) (others : list File) (st : State) :
  (type file = "text/csv" \/ (exists stem, name file = (stem ++ ".csv")%string) ->
   handleDrop upload (file :: others) st = (handleFileChange upload [file] st, [])) /\
  (type file <> "text/csv" ->
   (forall stem, name file <> (stem ++ ".csv")%string) ->
   handleDrop upload (file :: others) st
   = (st, [Alert "Please drop a valid CSV file."])) /\
  handleDrop upload [] st = (st, []).
Proof.
  unfold handleDrop, handleFileChange. split; [|split; [|reflexivity]].
  - intros [Htype|Hname].
    + rewrite Htype. reflexivity.
    + apply endsWith_spec in Hname. rewrite Hname, orb_true_r. reflexivity.
  - intros Htype Hname. apply String.eqb_neq in Htype. rewrite Htype. simpl.
    destruct (Js.endsWith (name file) ".csv") eqn:E; [|reflexivity].
    apply endsWith_spec in E as [stem Hstem]. exfalso. exact (Hname stem Hstem).
Qed.

(** A spreadsheet and a CSV file without a type, for the examples. *)
Example drop_examples (upload : UploadServer) (st : State) :
  handleDrop upload [{| name := "prices.xlsx"; type := "application/vnd.ms-excel" |}] st
  = (st, [Alert "Please drop a valid CSV file."]) /\
  handleDrop upload [{| name := "prices.csv"; type := "" |}] st
  = (uploadRealFile upload {| name := "prices.csv"; type := "" |} st, []).
Proof. split; reflexivity. Qed.

End Upload.

(** ** The outcome of a backtest *)

Section BacktestOutcome.
Import MockData BacktestDashboard.
#[local] Open Scope list_scope.

(** The server ran the backtest: the response is [ok] and its body parses
    to a document, with or without a list of rows. *)
Definition succeeded (b : Browser) (st : State) (rows : option (list BacktestResult))
  : Prop :=
  exists response detail,
    fetch b (backtestRequest st) = Js.Normal response /\ ok response = true /\
    json response = Js.Normal (Document rows detail).

Definition is_alert (e : Effect) : bool :=
  match e with Alert _ => true | _ => false end.

(** The alerts among the effects of a call. *)
Definition alerts (effects : list Effect) : list Effect :=
  List.filter is_alert effects.

Lemma ready_runs (b : Browser) (st : State) :
  ready b st ->
  handleRunBacktest b st
  = let st1 := setHasResults false (setIsRunning true st) in
    let '(st2, effects) :=
      match afterFetch b st1 with
      | Js.Normal (st2, effects) => (st2, effects)
      | Js.Throws error =>
          (st1, [ConsoleError "Backtest error:" error;
                 Alert "Error connecting to backend."])
      end in
    (BacktestDashboard.setIsRunning false st2, Fetch (backtestRequest st) :: effects).
Proof.
  intros (Hup & Hf & Ht & s & e & Hs & He & Hle). unfold handleRunBacktest.
  rewrite Hup. simpl. apply String.eqb_neq in Hf, Ht. rewrite Hf, Ht. simpl.
  rewrite Hs, He.
  replace (s >? e)%Z with false by (symmetry; rewrite Z.gtb_ltb; apply Z.ltb_ge; exact Hle).
  reflexivity.
Qed.

(** X14. When the preconditions of a run hold, the component is no longer
    running once the handler has ended, whatever the server did.  If the
    server answered [ok] with a document, the results are shown: the rows of
    the document if it has a list of them, the mock rows otherwise, and no
    alert is raised.  In every other case (no connection, a response that
    is not [ok], a body that does not parse or is [null]) no results are
    shown, the rows are the ones from before, and exactly one alert is
    raised. *)
Theorem backtest_outcome (b : Browser) (st : State) :
  ready b st ->
  isRunning (fst (handleRunBacktest b st)) = false /\
  (forall rows,
      succeeded b st rows ->
      hasResults (fst (handleRunBacktest b st)) = true /\
      results (fst (handleRunBacktest b st))
      = match rows with Some rows => rows | None => generateBacktestResults end /\
      alerts (snd (handleRunBacktest b st)) = []) /\
  ((forall rows, ~ succeeded b st rows) ->
   hasResults (fst (handleRunBacktest b st)) = false /\
   results (fst (handleRunBacktest b st)) = results st /\
   length (alerts (snd (handleRunBacktest b st))) = 1%nat).
Proof.
  intros Hready. rewrite (ready_runs b st Hready). unfold succeeded.
  cbv zeta. unfold afterFetch.
  change (backtestRequest (setHasResults false (BacktestDashboard.setIsRunning true st)))
    with (backtestRequest st).
  destruct (fetch b (backtestRequest st)) as [response|err]; simpl.
  - destruct (ok response) eqn:Eok.
    + destruct (json response) as [[|rows detail]|err] eqn:Ej; simpl.
      * split; [reflexivity|]. split; [|auto].
        intros rows (r & detail & [= <-] & _ & H). congruence.
      * split; [reflexivity|]. split.
        -- intros rows' (r & detail' & [= <-] & _ & H).
           rewrite Ej in H. injection H as <- <-.
           destruct rows; simpl; auto.
        -- intros Hnone. exfalso. apply (Hnone rows). eauto.
      * split; [reflexivity|]. split; [|auto].
        intros rows (r & detail & [= <-] & _ & H). congruence.
    + simpl. split; [reflexivity|]. split.
      * intros rows (r & detail & [= <-] & H & _). congruence.
      * intros _. unfold serverErrorAlert.
        destruct (_ ≫= _); simpl; auto.
  - split; [reflexivity|]. split; [|auto].
    intros rows (r & detail & H & _). discriminate.
Qed.

(** The theorem at the form with its default dates after an upload, with a
    server that answers with two rows. *)
Definition answering (rows : list BacktestResult) : Browser :=
  {| getTime := getTime offline;
     fetch := fun _ => Js.Normal {| ok := true;
                                    json := Js.Normal (Document (Some rows) "") |} |}.

Lemma backtest_outcome_witness :
  ready (answering [rowB; rowA]) (setIsFileUploaded true initialState) /\
  fst (handleRunBacktest (answering [rowB; rowA]) (setIsFileUploaded true initialState))
  = setResults [rowB; rowA] (setHasResults true (setIsFileUploaded true initialState)) /\
  isRunning
    (fst (handleRunBacktest (answering [rowB; rowA])
            (setIsFileUploaded true initialState)))
  = false.
Proof.
  assert (Hready : ready (answering [rowB; rowA]) (setIsFileUploaded true initialState)).
  { repeat split; try discriminate.
    exists 1704067200000%Z, 1734134400000%Z. repeat split. lia. }
  split; [exact Hready|]. split; [reflexivity|].
  apply (backtest_outcome (answering [rowB; rowA])
           (setIsFileUploaded true initialState) Hready).
Defined.

End BacktestOutcome.

(** ** Splitting and joining strings *)

Section Pieces.
#[local] Open Scope list_scope.

(** The character [c] occurs in [s]. *)
Fixpoint occurs (c : ascii) (s : string) : Prop :=
  match s with
  | EmptyString => False
  | String.String c' tail => c' = c \/ occurs c tail
  end.

Lemma split_cons (sep : ascii) (s : string) :
  exists piece pieces, Js.split sep s = piece :: pieces.
Proof.
  destruct s as [|c s]; simpl; [eauto|].
  destruct (Ascii.eqb c sep); [eauto|].
  destruct (Js.split sep s); eauto.
Qed.

(** Joining the pieces of a string with the separator gives the string
    back. *)
Lemma join_split (sep : ascii) (s : string) :
  Js.join (String.String sep "") (Js.split sep s) = s.
Proof.
  induction s as [|c s IH]; [reflexivity|]. cbn [Js.split].
  destruct (split_cons sep s) as (piece & pieces & E). rewrite E in *.
  destruct (Ascii.eqb_spec c sep) as [->|Hne].
  - change (Js.join ?j ("" :: piece :: pieces))
      with ("" ++ j ++ Js.join j (piece :: pieces))%string.
    rewrite IH. reflexivity.
  - destruct pieces as [|piece' pieces].
    + change (Js.join ?j [piece]) with piece in IH.
      change (Js.join ?j [String.String c piece]) with (String.String c piece).
      congruence.
    + change (Js.join ?j (piece :: piece' :: pieces))
        with (piece ++ j ++ Js.join j (piece' :: pieces))%string in IH.
      change (Js.join ?j (String.String c piece :: piece' :: pieces))
        with (String.String c (piece ++ j ++ Js.join j (piece' :: pieces)))%string.
      congruence.
Qed.

(** The pieces of [head ++ sep ++ tail], when [sep] does not occur in
    [head]: [head], and then the pieces of [tail]. *)
Lemma split_app (sep : ascii) (head tail : string) :
  ~ occurs sep head ->
  Js.split sep (head ++ String.String sep tail)%string = head :: Js.split sep tail.
Proof.
  induction head as [|c head IH]; intros Hno.
  - cbv [String.append]. cbn [Js.split]. rewrite Ascii.eqb_refl. reflexivity.
  - cbv [String.append]. fold String.append. cbn [Js.split].
    simpl in Hno. destruct (Ascii.eqb_spec c sep) as [->|Hne]; [tauto|].
    rewrite IH by tauto. reflexivity.
Qed.

(** A string in which [sep] does not occur is its only piece. *)
Lemma split_whole (sep : ascii) (s : string) :
  ~ occurs sep s -> Js.split sep s = [s].
Proof.
  induction s as [|c s IH]; intros Hno; [reflexivity|]. cbn [Js.split].
  simpl in Hno. destruct (Ascii.eqb_spec c sep) as [->|Hne]; [tauto|].
  rewrite IH by tauto. reflexivity.
Qed.

(** The first piece holds no separator, and the string is the first piece
    alone or the first piece, a separator and more. *)
Lemma first_piece (sep : ascii) (s : string) :
  ~ occurs sep (hd "" (Js.split sep s)) /\
  (s = hd "" (Js.split sep s) \/
   exists rest, s = (hd "" (Js.split sep s) ++ String.String sep rest)%string).
Proof.
  induction s as [|c s IH]; [simpl; tauto|]. cbn [Js.split].
  destruct (Ascii.eqb_spec c sep) as [->|Hne].
  - simpl. split; [tauto|]. right. exists s. reflexivity.
  - destruct (split_cons sep s) as (piece & pieces & E). rewrite E in *.
    simpl in *. destruct IH as [Hno [Hs|[rest Hs]]].
    + split; [tauto|]. left. congruence.
    + split; [tauto|]. right. exists rest. cbv [String.append].
      fold String.append. congruence.
Qed.

End Pieces.

(** ** The bars of the chart *)

Section Chart.
Import MockData BacktestDashboard.
#[local] Open Scope list_scope.

(** X16. The chart has one bar per result, in the order of the results and
    with their Sharpe ratios and returns.  The name of a bar is the coin, an
    underscore and the strategy up to its first underscore: that part holds
    no underscore, and the strategy is that part alone or that part
    followed by an underscore and more. *)
Theorem chart_follows_results (results : list BacktestResult) :
  length (chartData results) = length results /\
  map bar_sharpe (chartData results) = map sharpe results /\
  map bar_return (chartData results) = map r_return results /\
  (forall i r,
      results !! i = Some r ->
      exists part,
        bar_name <$> chartData results !! i = Some (r_coin r ++ "_" ++ part)%string /\
        ~ occurs "_" part /\
        (r_strategy r = part \/
         exists rest, r_strategy r = (part ++ "_" ++ rest)%string)).
Proof.
  unfold chartData. split; [apply length_map|].
  split; [rewrite map_map; reflexivity|]. split; [rewrite map_map; reflexivity|].
  intros i r Hr. exists (hd "" (Js.split "_" (r_strategy r))).
  split.
  - change (map ?f ?l) with (f <$> l). rewrite list_lookup_fmap, Hr. reflexivity.
  - exact (first_piece "_" (r_strategy r)).
Qed.

(** The names of the bars of the mock rows. *)
Example chart_of_mock_rows :
  map bar_name (chartData generateBacktestResults)
  = ["BTC_SMA"; "ETH_Momentum"; "SOL_RSI"; "XRP_MACD"; "DOGE_BollingerBands";
     "ADA_MeanReversion"].
Proof. reflexivity. Qed.

End Chart.

(** ** Starting, pausing and toggling strategies *)

Section LiveControls.
Import MockData LiveTradingDashboard.
#[local] Open Scope list_scope.

Variable VITE_API_BASE : option string.
Variable fetch : ApiClient.Network.

Lemma or_string_nonempty (a b : string) : a <> "" -> Js.or_string a b = a.
Proof.
  intros H. unfold Js.or_string. apply String.eqb_neq in H. rewrite H. reflexivity.
Qed.

Lemma join_tail_empty (parts : list string) :
  Js.join "_" (tl parts) = "" ->
  match nth_error parts 1 with Some part => part = "" | None => True end.
Proof.
  destruct parts as [|p0 [|p1 [|p2 rest]]]; simpl; auto.
  intros H. destruct p1; [reflexivity|discriminate].
Qed.

(** The second alternative of the name is never the one that is taken. *)
Lemma nameOf_two_ways (parts : list string) :
  nameOf parts = Js.or_string (Js.join "_" (tl parts)) "SMA_Crossover".
Proof.
  unfold nameOf, Js.or_string at 1 3.
  destruct (String.eqb_spec (Js.join "_" (tl parts)) "") as [E|_]; [|reflexivity].
  pose proof (join_tail_empty parts E) as H.
  destruct (nth_error parts 1) as [part|]; [|reflexivity]. rewrite H. reflexivity.
Qed.

Definition flipped (status : string) (strategyId : string) (p : LiveTradeData)
  : LiveTradeData :=
  if String.eqb (l_strategy p) strategyId then withStatus status p else p.

(** X17. Toggling a row that is ACTIVE unregisters its strategy id and
    marks the rows with that id PAUSED; toggling any other row registers
    and marks them ACTIVE; the rows are marked whatever the outcome of the
    call.  For an id of the form COIN_NAME, with no underscore in COIN and
    NAME not empty, the strategy registered is NAME, further underscores
    included, on the coin of the row or, if the row has none, on COIN; for
    an id without an underscore it is SMA_Crossover; and the name is never
    taken from the second piece of the id alone. *)
Theorem toggle_registers_name_of_id (item : LiveTradeData) (liveData : list LiveTradeData) :
  (l_status item = "ACTIVE" ->
   toggleStrategy VITE_API_BASE fetch item liveData
   = (ApiClient.unregisterStrategy VITE_API_BASE fetch (l_strategy item),
      map (flipped "PAUSED" (l_strategy item)) liveData)) /\
  (l_status item <> "ACTIVE" ->
   snd (toggleStrategy VITE_API_BASE fetch item liveData)
   = map (flipped "ACTIVE" (l_strategy item)) liveData /\
   fst (toggleStrategy VITE_API_BASE fetch item liveData)
   = ApiClient.registerStrategy VITE_API_BASE fetch
       (Js.or_string (Js.join "_" (tl (Js.split "_" (l_strategy item)))) "SMA_Crossover")
       (Js.or_string (l_coin item) (hd "" (Js.split "_" (l_strategy item))))
       (ApiClient.Plain (Js.Object [])) /\
   (forall coin name,
       ~ occurs "_" coin -> name <> "" ->
       l_strategy item = (coin ++ "_" ++ name)%string ->
       fst (toggleStrategy VITE_API_BASE fetch item liveData)
       = ApiClient.registerStrategy VITE_API_BASE fetch name
           (Js.or_string (l_coin item) coin) (ApiClient.Plain (Js.Object []))) /\
   (~ occurs "_" (l_strategy item) ->
    fst (toggleStrategy VITE_API_BASE fetch item liveData)
    = ApiClient.registerStrategy VITE_API_BASE fetch "SMA_Crossover"
        (Js.or_string (l_coin item) (l_strategy item))
        (ApiClient.Plain (Js.Object [])))).
Proof.
  unfold toggleStrategy. split.
  - intros ->. reflexivity.
  - intros Hs. apply String.eqb_neq in Hs. rewrite Hs. cbv zeta. cbn [fst snd].
    rewrite nameOf_two_ways. split; [reflexivity|]. split; [reflexivity|]. split.
    + intros coin name Hcoin Hname ->.
      change (coin ++ "_" ++ name)%string with (coin ++ String.String "_" name)%string.
      rewrite (split_app "_" coin name Hcoin). cbn [hd tl].
      rewrite (join_split "_" name), (or_string_nonempty name _ Hname). reflexivity.
    + intros Hno. rewrite (split_whole "_" _ Hno). reflexivity.
Qed.

Lemma activeStrategies_all (liveData : list LiveTradeData) :
  activeStrategies (map (withStatus "ACTIVE") liveData) = length liveData.
Proof.
  unfold activeStrategies. induction liveData as [|p l IH]; simpl; [reflexivity|].
  f_equal. exact IH.
Qed.

Lemma activeStrategies_none (liveData : list LiveTradeData) :
  activeStrategies (map (withStatus "PAUSED") liveData) = 0%nat.
Proof.
  unfold activeStrategies. induction liveData as [|p l IH]; simpl; [reflexivity|].
  exact IH.
Qed.

(** The body the server sent to the request of a control function, when it
    was answered and the body parses. *)
Definition answered (url : string) (init : ApiClient.RequestInit) (v : Js.value) : Prop :=
  exists response, fetch url init = Js.Normal response /\
                   ApiClient.json response = Js.Normal v.

(** X18. Pause All marks every row PAUSED, and then no strategy counts as
    active, exactly when the stop request was answered with a body that
    parses to a truthy value, whether or not the response was [ok]; when
    the request fails, the body does not parse or it is falsy, the rows
    stay as they are.  Start All does the same with ACTIVE, after which
    every row counts as active. *)
Theorem start_and_pause_all (liveData : list LiveTradeData) :
  let stop := {| ApiClient.method := "POST"; ApiClient.headers := [];
                 ApiClient.body := None |} in
  let stopUrl := (ApiClient.API_BASE VITE_API_BASE ++ "/api/engine/stop")%string in
  ((exists v, answered stopUrl stop v /\ Js.truthy v = true) ->
   handlePauseAll VITE_API_BASE fetch liveData = map (withStatus "PAUSED") liveData /\
   activeStrategies (handlePauseAll VITE_API_BASE fetch liveData) = 0%nat) /\
  (~ (exists v, answered stopUrl stop v /\ Js.truthy v = true) ->
   handlePauseAll VITE_API_BASE fetch liveData = liveData) /\
  (handleStartAll VITE_API_BASE fetch liveData = liveData \/
   handleStartAll VITE_API_BASE fetch liveData = map (withStatus "ACTIVE") liveData /\
   activeStrategies (handleStartAll VITE_API_BASE fetch liveData) = length liveData).
Proof.
  cbv zeta. unfold handlePauseAll, handleStartAll, ApiClient.stopEngine,
    ApiClient.startEngine, answered.
  split; [|split].
  - intros (v & (response & Hf & Hj) & Hv). rewrite Hf. simpl. rewrite Hj. simpl.
    rewrite Hv. split; [reflexivity|apply activeStrategies_none].
  - intros Hnot.
    destruct (fetch _ _) as [response|e] eqn:Hf; simpl; [|reflexivity].
    destruct (ApiClient.json response) as [v|e] eqn:Hj; simpl; [|reflexivity].
    destruct (Js.truthy v) eqn:Hv; [|reflexivity].
    exfalso. apply Hnot. exists v. split; [|exact Hv]. exists response. auto.
  - destruct (fetch _ _) as [response|e]; simpl; [|auto].
    destruct (ApiClient.json response) as [v|e]; simpl; [|auto].
    destruct (Js.truthy v); [|auto]. right.
    split; [reflexivity|apply activeStrategies_all].
Qed.

End LiveControls.

(** A paused row of a strategy with an underscore in its name, and without
    a coin of its own. *)
Definition pausedRow : MockData.LiveTradeData :=
  {| MockData.l_coin := ""; MockData.l_strategy := "BTC_SMA_Crossover";
     MockData.l_currentPrice := 43210%Q; MockData.pnl24h := 0%Q;
     MockData.return24h := 0%Q; MockData.l_status := "PAUSED";
     MockData.trades24h := 0%Q |}.

(** A network that cannot be reached. *)
Definition unreachable : ApiClient.Network :=
  fun _ _ => Js.Throws (Js.TypeError "Failed to fetch").

(** The theorem at the paused row, with a network that cannot be reached:
    the strategy SMA_Crossover is registered on BTC, and the row is marked
    ACTIVE although the call failed. *)
Lemma toggle_registers_name_of_id_witness :
  MockData.l_status pausedRow <> "ACTIVE" /\
  fst (LiveTradingDashboard.toggleStrategy None unreachable pausedRow [pausedRow])
  = ApiClient.registerStrategy None unreachable "SMA_Crossover" "BTC"
      (ApiClient.Plain (Js.Object [])) /\
  snd (LiveTradingDashboard.toggleStrategy None unreachable pausedRow [pausedRow])
  = map (flipped "ACTIVE" (MockData.l_strategy pausedRow)) [pausedRow].
Proof.
  split; [discriminate|]. split; [reflexivity|].
  apply (toggle_registers_name_of_id None unreachable pausedRow [pausedRow]).
  discriminate.
Defined.

(** ** Reading from the API *)

Section ApiReads.
Import ApiClient.
#[local] Open Scope list_scope.

Variable VITE_API_BASE : option string.
Variable fetch : Network.

(** The network with every response given the status [status]. *)
Definition withOk (status : bool) (network : Network) : Network :=
  fun url init =>
    res ← network url init; mret {| ok := status; json := json res |}.

(** What a reading function leaves: the body of the response to the GET of
    [url] if the response is [ok] and the body parses, and otherwise [null]
    and one logged line. *)
Definition reads (label message url : string) (o : Outcome) : Prop :=
  match fetch url get with
  | Js.Normal res =>
      if ok res then
        match json res with
        | Js.Normal v => o = {| returned := Js.Normal v; console := [] |}
        | Js.Throws e =>
            o = {| returned := Js.Normal Js.Null; console := [(label, e)] |}
        end
      else o = {| returned := Js.Normal Js.Null;
                  console := [(label, Js.Error message)] |}
  | Js.Throws e => o = {| returned := Js.Normal Js.Null; console := [(label, e)] |}
  end.

Lemma reads_json_if_ok label message url :
  reads label message url
    (try_or_null label (res ← fetch url get; json_if_ok message res)).
Proof.
  unfold reads, json_if_ok. destruct (fetch url get) as [res|e]; simpl; [|reflexivity].
  destruct (ok res); simpl; [|reflexivity]. destruct (json res); reflexivity.
Qed.

(** X19. The three reading functions never throw.  Each returns the parsed
    body of the response to its GET when the response is [ok], and [null]
    with one line logged in every other case: when the request fails, when
    the body does not parse, and when the status is not [ok], in which case
    the body is not read and the line carries the function's own message. *)
Theorem reading_functions_check_status :
  reads "fetchInitialMetrics error" "Failed to fetch metrics"
    (API_BASE VITE_API_BASE ++ "/metrics") (fetchInitialMetrics VITE_API_BASE fetch) /\
  reads "fetchInitialTrades error" "Failed to fetch trades"
    (API_BASE VITE_API_BASE ++ "/trades") (fetchInitialTrades VITE_API_BASE fetch) /\
  reads "fetchStrategies error" "Failed to fetch strategies"
    (API_BASE VITE_API_BASE ++ "/api/strategies") (fetchStrategies VITE_API_BASE fetch) /\
  (forall network,
      returned (fetchInitialMetrics VITE_API_BASE (withOk false network))
      = Js.Normal Js.Null /\
      returned (fetchInitialTrades VITE_API_BASE (withOk false network))
      = Js.Normal Js.Null /\
      returned (fetchStrategies VITE_API_BASE (withOk false network))
      = Js.Normal Js.Null).
Proof.
  split; [apply reads_json_if_ok|]. split; [apply reads_json_if_ok|].
  split; [apply reads_json_if_ok|].
  intros network. unfold fetchInitialMetrics, fetchInitialTrades, fetchStrategies, withOk.
  repeat split; destruct (network _ _) as [res|e]; reflexivity.
Qed.

Lemma withOk_relays status network label url init :
  try_or_null label (res ← withOk status network url init; json res)
  = try_or_null label (res ← network url init; json res).
Proof.
  unfold withOk. destruct (network url init) as [res|e]; reflexivity.
Qed.

(** X20. The functions that change something on the server, and the reading
    of the active alerts, do not look at the status of the response: each
    leaves the same result and the same log whether the server reports
    success or failure with the same body, so a body that reports an error
    is returned like any other. *)
Theorem control_functions_ignore_status (status : bool) :
  (forall strategyName coin params,
      registerStrategy VITE_API_BASE (withOk status fetch) strategyName coin params
      = registerStrategy VITE_API_BASE fetch strategyName coin params) /\
  (forall strategyId,
      unregisterStrategy VITE_API_BASE (withOk status fetch) strategyId
      = unregisterStrategy VITE_API_BASE fetch strategyId) /\
  (forall opts,
      startEngine VITE_API_BASE (withOk status fetch) opts
      = startEngine VITE_API_BASE fetch opts) /\
  stopEngine VITE_API_BASE (withOk status fetch) = stopEngine VITE_API_BASE fetch /\
  (forall csvPath strategyConfigs coins,
      runBacktest VITE_API_BASE (withOk status fetch) csvPath strategyConfigs coins
      = runBacktest VITE_API_BASE fetch csvPath strategyConfigs coins) /\
  (forall csvPath,
      analyzeTrends VITE_API_BASE (withOk status fetch) csvPath
      = analyzeTrends VITE_API_BASE fetch csvPath) /\
  getCopilotActiveAlerts VITE_API_BASE (withOk status fetch)
  = getCopilotActiveAlerts VITE_API_BASE fetch.
Proof.
  repeat split.
  - intros strategyName coin [v|]; unfold registerStrategy; simpl; [|reflexivity].
    apply withOk_relays.
  - intros strategyId. apply withOk_relays.
  - intros opts. apply withOk_relays.
  - apply withOk_relays.
  - intros csvPath strategyConfigs coins. unfold runBacktest.
    destruct (toJSONs strategyConfigs) as [configs|e]; simpl; [|reflexivity].
    apply withOk_relays.
  - intros csvPath. apply withOk_relays.
  - apply withOk_relays.
Qed.

End ApiReads.
